(** * RCTBaseMesh: texture binding of a React VR mesh view

    A shallow embedding of the texture handling of
    [src/ReactVR/js/Views/BaseMesh.js]: the [texture] property setter
    [_setTexture], the two promise handlers it registers on
    [TextureManager.getTextureForURL], and [dispose].

    The view is a record of the fields the methods touch.  The
    [TextureManager], the console and the two THREE materials are external
    objects: every call on them is appended to a chronological trace, and the
    material fields are kept in the view as well.  A promise returned by
    [getTextureForURL] is a request in a table; its settlement is a separate
    step that runs the handler registered by [_setTexture], with the [url]
    the closure captured. *)

From stdpp Require Import base option list strings.

(** ** Values *)

(** A [THREE.Texture] object, by identity. *)
Inductive Texture := TextureObject (id : nat).

#[global] Instance Texture_eq_dec : EqDecision Texture.
Proof. solve_decision. Defined.

(** [type ResourceSpecifier = void | null | string | {uri: string}] *)
Inductive ResourceSpecifier :=
| RSUndefined
| RSNull
| RSString (s : string)
| RSObject (uri : string).

(** What can be thrown or passed to a rejection handler. *)
Inductive JsError :=
| InvalidTextureValue (value : ResourceSpecifier)
    (* new Error('Invalid value for texture property: ' + JSON.stringify(value)) *)
| TypeError
    (* property assignment on null *)
| LoadError (msg : string).
    (* whatever getTextureForURL rejects with *)

(** JavaScript truthiness of a [ResourceSpecifier]: [undefined], [null] and
    the empty string are falsy, every object is truthy. *)
Definition truthy (value : ResourceSpecifier) : bool :=
  match value with
  | RSUndefined | RSNull => false
  | RSString EmptyString => false
  | RSString (String _ _) => true
  | RSObject _ => true
  end.

(** Truthiness of a [null | string]. *)
Definition truthy_url (url : option string) : bool :=
  match url with
  | Some (String _ _) => true
  | _ => false
  end.

(** ** The view and its collaborators *)

Module Material.
(** The two fields of a THREE material written by the view. *)
Record t := mk { map : option Texture; needsUpdate : bool }.
(** [new THREE.MeshPhongMaterial({color})], [new THREE.MeshBasicMaterial({color})]:
    a fresh material has no map, and is marked for update. *)
Definition fresh : t := {| map := None; needsUpdate := true |}.
End Material.

Inductive MaterialName := LitMaterial | UnlitMaterial.

(** The instance fields read or written by [_setTexture] and [dispose]. *)
Record RCTBaseMesh := mkRCTBaseMesh {
  _textureURL : option string;
  _loadingURL : option string;
  _texture : option Texture;
  _litMaterial : Material.t;
  _unlitMaterial : Material.t;
  mesh : option nat;
  _geometry : option nat;
}.

(** Calls on external objects, in the order they are made. *)
Inductive Event :=
| AddReference (url : string)          (* manager.addReference(url) *)
| RemoveReference (url : string)       (* manager.removeReference(url) *)
| GetTextureForURL (url : string)      (* manager.getTextureForURL(url) *)
| MaterialMaps (texture : option Texture)
    (* both materials: map = texture, needsUpdate = true *)
| TextureNeedsUpdate (texture : Texture)   (* texture.needsUpdate = true *)
| MaterialDispose (m : MaterialName)   (* material.dispose() *)
| SuperDispose
    (* super.dispose(): the call; what RCTBaseView does in it is not in this file *)
| ConsoleError (err : JsError).        (* console.error(err) *)

(** A promise returned by [getTextureForURL] with the handlers of
    [_setTexture] attached: [req_url] is the [url] the handlers closed over,
    [req_settled] tells whether the promise has settled (it does so once). *)
Record Request := mkRequest { req_url : string; req_settled : bool }.

Record World := mkWorld {
  this : RCTBaseMesh;
  requests : list Request;
  trace : list Event;
}.

(** How a promise settles: [Fulfilled] with a texture ([None] is [null]) or
    [Rejected] with an error. *)
Inductive Settlement :=
| Fulfilled (texture : option Texture)
| Rejected (err : JsError).

(** ** A state and exception monad for method bodies *)

Inductive Completion (A : Type) :=
| Return (a : A)
| Throw (e : JsError).
Arguments Return {A} a.
Arguments Throw {A} e.

Definition M (A : Type) : Type := World -> Completion A * World.

Definition ret {A} (a : A) : M A := fun w => (Return a, w).

Definition throw {A} (e : JsError) : M A := fun w => (Throw e, w).

Definition seq {A B} (m : M A) (k : A -> M B) : M B := fun w =>
  match m w with
  | (Return a, w') => k a w'
  | (Throw e, w') => (Throw e, w')
  end.

(** [promise.catch(handler)] around a handler body. *)
Definition catch (m : M unit) (handler : JsError -> M unit) : M unit := fun w =>
  match m w with
  | (Return a, w') => (Return a, w')
  | (Throw e, w') => handler e w'
  end.

Declare Scope js_scope.
Delimit Scope js_scope with js.
Notation "'let*' x ':=' m 'in' k" := (seq m (fun x => k))
  (at level 10, x name, m at level 100, k at level 200) : js_scope.
Notation "m ;; k" := (seq m (fun _ => k))
  (at level 100, k at level 200, right associativity) : js_scope.
Open Scope js_scope.

Definition when_ (b : bool) (m : M unit) : M unit := if b then m else ret tt.

Definition read {A} (field : RCTBaseMesh -> A) : M A := fun w => (Return (field (this w)), w).

Definition modify (f : RCTBaseMesh -> RCTBaseMesh) : M unit := fun w =>
  (Return tt, {| this := f (this w); requests := requests w; trace := trace w |}).

Definition emit (e : Event) : M unit := fun w =>
  (Return tt, {| this := this w; requests := requests w; trace := trace w ++ [e] |}).

(** Field assignments. *)
Definition set_textureURL (v : option string) : M unit :=
  modify (fun o => mkRCTBaseMesh v (_loadingURL o) (_texture o)
                     (_litMaterial o) (_unlitMaterial o) (mesh o) (_geometry o)).

Definition set_loadingURL (v : option string) : M unit :=
  modify (fun o => mkRCTBaseMesh (_textureURL o) v (_texture o)
                     (_litMaterial o) (_unlitMaterial o) (mesh o) (_geometry o)).

Definition set_texture (v : option Texture) : M unit :=
  modify (fun o => mkRCTBaseMesh (_textureURL o) (_loadingURL o) v
                     (_litMaterial o) (_unlitMaterial o) (mesh o) (_geometry o)).

Definition set_materials (lit unlit : Material.t) : M unit :=
  modify (fun o => mkRCTBaseMesh (_textureURL o) (_loadingURL o) (_texture o)
                     lit unlit (mesh o) (_geometry o)).

Definition set_mesh_geometry (m g : option nat) : M unit :=
  modify (fun o => mkRCTBaseMesh (_textureURL o) (_loadingURL o) (_texture o)
                     (_litMaterial o) (_unlitMaterial o) m g).

(** ** TextureManager *)

Definition addReference (url : string) : M unit := emit (AddReference url).

Definition removeReference (url : string) : M unit := emit (RemoveReference url).

(** [manager.getTextureForURL(url).then(onFulfilled, onRejected).catch(...)]:
    the call is made and the promise, with the handlers closed over [url],
    joins the request table.  The handlers run when the promise settles,
    never during the call. *)
Definition getTextureForURL (url : string) : M unit := fun w =>
  (Return tt, {| this := this w;
                 requests := requests w ++ [mkRequest url false];
                 trace := trace w ++ [GetTextureForURL url] |}).

(** ** Methods *)

(** Lines 130-133 and 160-163: the same four assignments, with [null] or
    with [this._texture]. *)
Definition assignMaterialMaps (texture : option Texture) : M unit :=
  set_materials (Material.mk texture true) (Material.mk texture true) ;;
  emit (MaterialMaps texture).

(** Lines 121-128 and 207-214: drop the texture and release its reference. *)
Definition releaseTexture : M unit :=
  let* texture := read _texture in
  when_ (bool_decide (is_Some texture)) (
    set_texture None ;;
    let* textureURL := read _textureURL in
    match textureURL with
    | Some (String a s) =>
        removeReference (String a s) ;;
        set_textureURL None
    | _ => ret tt
    end).

(** The fulfilment handler of lines 146-164. *)
Definition onFulfilled (url : string) (texture : option Texture) : M unit :=
  let* loadingURL := read _loadingURL in
  if bool_decide (loadingURL = Some url) then
    set_loadingURL None ;;
    let* textureURL := read _textureURL in
    match textureURL with
    | Some (String a s) => removeReference (String a s)
    | _ => ret tt
    end ;;
    set_texture texture ;;
    match texture with
    | None => throw TypeError
    | Some tex =>
        emit (TextureNeedsUpdate tex) ;;
        set_textureURL (Some url) ;;
        assignMaterialMaps (Some tex)
    end
  else
    removeReference url.

(** The rejection handler of lines 165-169. *)
Definition onRejected (url : string) (err : JsError) : M unit :=
  removeReference url ;;
  set_loadingURL None ;;
  emit (ConsoleError err).

(** [dispose()], lines 206-220. *)
Definition dispose : M unit :=
  releaseTexture ;;
  emit (MaterialDispose LitMaterial) ;;
  emit (MaterialDispose UnlitMaterial) ;;
  emit SuperDispose ;;
  set_mesh_geometry None None.

Definition mark_settled (i : nat) (r : Request) : M unit := fun w =>
  (Return tt, {| this := this w;
                 requests := <[i := mkRequest (req_url r) true]> (requests w);
                 trace := trace w |}).

(** Settlement of the [i]-th promise: the matching handler runs once, and
    what it throws reaches the [.catch] of lines 171-173. *)
Definition settle (i : nat) (s : Settlement) : M unit := fun w =>
  match requests w !! i with
  | Some r =>
      if req_settled r then (Return tt, w)
      else
        (mark_settled i r ;;
         catch
           match s with
           | Fulfilled texture => onFulfilled (req_url r) texture
           | Rejected err => onRejected (req_url r) err
           end
           (fun e => emit (ConsoleError e))) w
  | None => (Return tt, w)
  end.

Section WithExtractURL.

(** [extractURL] of [../Utils/extractURL] is imported, not defined, by this
    file: the URL of a specifier, or [null]. *)
Variable extractURL : ResourceSpecifier -> option string.

(** [_setTexture(value)], lines 119-174. *)
Definition _setTexture (value : ResourceSpecifier) : M unit :=
  if negb (truthy value) then
    releaseTexture ;;
    assignMaterialMaps None
  else
    match extractURL value with
    | Some (String a s) =>
        let url := String a s in
        set_loadingURL (Some url) ;;
        addReference url ;;
        getTextureForURL url
    | _ => throw (InvalidTextureValue value)
    end.

(** [value] is truthy and [extractURL] gives it the truthy URL [url]: the
    setter reaches line 140 with this [url]. *)
Definition resolves_to (value : ResourceSpecifier) (url : string) : Prop :=
  truthy value = true /\ extractURL value = Some url /\ truthy_url (Some url) = true.

(** ** Histories *)

Inductive Step :=
| SetTexture (value : ResourceSpecifier)
| Settle (i : nat) (s : Settlement)
| Dispose.

Definition exec (e : Step) : M unit :=
  match e with
  | SetTexture value => _setTexture value
  | Settle i s => settle i s
  | Dispose => dispose
  end.

(** The world after a step; an exception thrown by the setter goes to its
    caller and the world stays as the setter left it. *)
Definition step (e : Step) (w : World) : World := snd (exec e w).

Fixpoint run (es : list Step) (w : World) : World :=
  match es with
  | [] => w
  | e :: es' => run es' (step e w)
  end.

End WithExtractURL.

(** The constructor, lines 39-52. *)
Definition construct : World :=
  {| this := {| _textureURL := None; _loadingURL := None; _texture := None;
                _litMaterial := Material.fresh; _unlitMaterial := Material.fresh;
                mesh := None; _geometry := None |};
     requests := [];
     trace := [] |}.

(** An [extractURL] for concrete runs: a string is its own URL, an object
    gives its [uri]. *)
Definition extractURL_of_uri (resource : ResourceSpecifier) : option string :=
  match resource with
  | RSString s => Some s
  | RSObject uri => Some uri
  | _ => None
  end.

(** Concrete views: a load of a.png in flight; a.png bound; a load of
    b.png issued while the load of a.png is in flight. *)
Definition loading_a : World :=
  run extractURL_of_uri [SetTexture (RSString "a.png")] construct.

Definition bound_a : World :=
  run extractURL_of_uri [Settle 0 (Fulfilled (Some (TextureObject 7)))] loading_a.

Definition loading_a_then_b : World :=
  run extractURL_of_uri [SetTexture (RSObject "b.png")] loading_a.

(** a.png and b.png bound one after the other, fulfilled in the opposite
    order, then cleared. *)
Definition busy_history : list Step :=
  [SetTexture (RSString "a.png"); SetTexture (RSObject "b.png");
   Settle 1 (Fulfilled (Some (TextureObject 8)));
   Settle 0 (Fulfilled (Some (TextureObject 7)));
   SetTexture RSNull].

(** The load of a.png rejected while b.png is loading. *)
Definition rejected_a_loading_b : World :=
  run extractURL_of_uri [Settle 0 (Rejected (LoadError "404"))] loading_a_then_b.

(** ** Reading a trace *)

Definition added (e : Event) : option string :=
  match e with AddReference url => Some url | _ => None end.

Definition released (e : Event) : option string :=
  match e with RemoveReference url => Some url | _ => None end.

Definition fetched (e : Event) : option string :=
  match e with GetTextureForURL url => Some url | _ => None end.

Definition notified (e : Event) : option (option Texture) :=
  match e with MaterialMaps texture => Some texture | _ => None end.

(** The keys of the [addReference] calls, of the [removeReference] calls and
    of the [getTextureForURL] calls of a trace, and the textures the
    materials were given, each in call order. *)
Definition additions (tr : list Event) : list string := omap added tr.
Definition removals (tr : list Event) : list string := omap released tr.
Definition fetches (tr : list Event) : list string := omap fetched tr.
Definition notifications (tr : list Event) : list (option Texture) := omap notified tr.

(** The [removeReference] call guarded by [if (this._textureURL)]. *)
Definition releases (boundKey : option string) : list Event :=
  match boundKey with
  | Some (String a s) => [RemoveReference (String a s)]
  | _ => []
  end.

(** Requests whose promise has not settled. *)
Definition in_flight (rs : list Request) : list Request :=
  List.filter (fun r => negb (req_settled r)) rs.

(** Settlement steps from pairs of a request index and an outcome. *)
Definition settlements (ss : list (nat * Settlement)) : list Step :=
  (fun p => Settle (fst p) (snd p)) <$> ss.

(** The loader keeps to its type [Promise<Texture>]: no fulfilment with
    [null]. *)
Definition nonnull_resolution (e : Step) : bool :=
  match e with
  | Settle _ (Fulfilled None) => false
  | _ => true
  end.

Definition is_dispose (e : Step) : bool :=
  match e with
  | Dispose => true
  | _ => false
  end.

(** The map of both materials, when they agree. *)
Definition material_maps (o : RCTBaseMesh) : option (option Texture) :=
  if decide (Material.map (_litMaterial o) = Material.map (_unlitMaterial o))
  then Some (Material.map (_litMaterial o)) else None.

(** The fields of a view agree: texture and key are set together, a key
    that is set is truthy, and so is the key of every request. *)
Definition consistent (w : World) : Prop :=
  (_texture (this w) = None <-> _textureURL (this w) = None) /\
  (_textureURL (this w) = None \/ truthy_url (_textureURL (this w)) = true) /\
  Forall (fun r => truthy_url (Some (req_url r)) = true) (requests w).

(** Both materials show the bound texture. *)
Definition materials_follow (w : World) : Prop :=
  Material.map (_litMaterial (this w)) = _texture (this w) /\
  Material.map (_unlitMaterial (this w)) = _texture (this w).

(** References held by the view: one per request in flight, one for the
    bound key. *)
Definition held (w : World) : nat :=
  length (in_flight (requests w))
  + (match _textureURL (this w) with Some _ => 1 | None => 0 end).

(** ** Counting by key *)

(** How often the key [k] occurs in a list of keys. *)
Definition count_key (k : string) (l : list string) : nat :=
  length (List.filter (fun x => bool_decide (x = k)) l).

(** The requests for [k] that are in flight, and whether [k] is the bound
    key, as numbers of references. *)
Definition in_flight_for (k : string) (rs : list Request) : nat :=
  count_key k (req_url <$> in_flight rs).

Definition bound_to (k : string) (o : RCTBaseMesh) : nat :=
  count_key k (option_list (_textureURL o)).

(** The references to [k] the calls of a trace leave with the view. *)
Definition ledger_for (k : string) (w : World) : Prop :=
  count_key k (additions (trace w))
  = count_key k (removals (trace w)) + in_flight_for k (requests w)
    + bound_to k (this w).

(** No prefix of the trace has more [removeReference(k)] than
    [addReference(k)]. *)
Definition never_below_zero (w : World) : Prop :=
  forall (p : list Event) (k : string),
    p `prefix_of` trace w ->
    count_key k (removals p) <= count_key k (additions p).

(** A [_loadingURL] that is set names the request issued last, and that
    request has not settled. *)
Definition awaits_latest (w : World) : Prop :=
  forall k, _loadingURL (this w) = Some k ->
            exists rs, requests w = rs ++ [mkRequest k false].

(** Settlement steps that fulfil with a texture. *)
Definition fulfilments (ss : list (nat * Texture)) : list Step :=
  (fun p => Settle (fst p) (Fulfilled (Some (snd p)))) <$> ss.

(** A step that clears the texture: a bind with a falsy specifier, or
    [dispose()]. *)
Definition is_clear (e : Step) : bool :=
  match e with
  | SetTexture value => negb (truthy value)
  | Dispose => true
  | Settle _ _ => false
  end.

(** ** Appearance: colour, opacity, lighting, wireframe and geometry

    The other setters of the class, on the fields they touch: the [opacity]
    setter the constructor defines on [style] (lines 54-73), [_setColor],
    [_setLit], [_setWireframe], [_setGeometry] and [presentLayout], for a
    view between its construction and its disposal.  A JavaScript number is
    a value of a type [number] given with its comparison [<], the number 1
    and the colour 0xffffff.  A geometry is an object, by identity; what
    [presentLayout] writes on it and what the view is given as a child are
    calls on external objects, kept in order. *)

Module Appearance.

Section Numbers.

Context {number : Type}.
Variable lt : number -> number -> bool.
Variable one white : number.

(** The fields of a THREE material these setters write; [color] is the
    argument of the last [color.setHex]. *)
Record Material := mkMaterial {
  color : number;
  opacity : number;
  transparent : bool;
  wireframe : bool;
}.

(** A [THREE.Mesh]: its geometry and which of the two materials it uses. *)
Record Mesh := mkMesh { geometry : nat; material : MaterialName }.

(** [Yoga.DISPLAY_FLEX] and [Yoga.DISPLAY_NONE], the values of
    [YGNode.getDisplay()]. *)
Inductive Display := DISPLAY_FLEX | DISPLAY_NONE.

Inductive Call :=
| ViewAdd                                      (* this.view.add(this.mesh) *)
| SuperPresentLayout                           (* super.presentLayout() *)
| GeometryVisible (g : nat) (visible : bool).  (* mesh.geometry.visible = visible *)

Record View := mkView {
  _color : option number;
  _lit : bool;
  _wireframe : bool;
  _litMaterial : Material;
  _unlitMaterial : Material;
  mesh : option Mesh;
  calls : list Call;
}.

(** Lines 39-52: materials as THREE makes them for [{color: 0xffffff}]
    (opacity 1, not transparent, no wireframe), [_color] left undefined. *)
Definition construct : View :=
  {| _color := None; _lit := false; _wireframe := false;
     _litMaterial := mkMaterial white one false false;
     _unlitMaterial := mkMaterial white one false false;
     mesh := None; calls := [] |}.

Definition with_opacity (x : number) (t : bool) (m : Material) : Material :=
  mkMaterial (color m) x t (wireframe m).

Definition with_color (c : number) (m : Material) : Material :=
  mkMaterial c (opacity m) (transparent m) (wireframe m).

Definition with_wireframe (flag : bool) (m : Material) : Material :=
  mkMaterial (color m) (opacity m) (transparent m) flag.

(** The [set] of [style.opacity], lines 59-71; [None] is [null]. *)
Definition set_opacity (value : option number) (v : View) : View :=
  match value with
  | None =>
      mkView (_color v) (_lit v) (_wireframe v)
             (with_opacity one false (_litMaterial v))
             (with_opacity one false (_unlitMaterial v))
             (mesh v) (calls v)
  | Some x =>
      mkView (_color v) (_lit v) (_wireframe v)
             (with_opacity x (lt x one) (_litMaterial v))
             (with_opacity x (lt x one) (_unlitMaterial v))
             (mesh v) (calls v)
  end.

(** [_setColor(color)], lines 108-117; [None] is [null] or [undefined]. *)
Definition _setColor (c : option number) (v : View) : View :=
  match c with
  | None =>
      mkView c (_lit v) (_wireframe v)
             (with_color white (_litMaterial v))
             (with_color white (_unlitMaterial v))
             (mesh v) (calls v)
  | Some x =>
      mkView c (_lit v) (_wireframe v)
             (with_color x (_litMaterial v))
             (with_color x (_unlitMaterial v))
             (mesh v) (calls v)
  end.

(** [flag ? this._litMaterial : this._unlitMaterial] *)
Definition material_for (flag : bool) : MaterialName :=
  if flag then LitMaterial else UnlitMaterial.

(** [_setLit(flag)], lines 176-182. *)
Definition _setLit (flag : bool) (v : View) : View :=
  let mat := material_for flag in
  mkView (_color v) flag (_wireframe v) (_litMaterial v) (_unlitMaterial v)
         (match mesh v with
          | Some m => Some (mkMesh (geometry m) mat)
          | None => None
          end)
         (calls v).

(** [_setWireframe(flag)], lines 184-188. *)
Definition _setWireframe (flag : bool) (v : View) : View :=
  mkView (_color v) (_lit v) flag
         (with_wireframe flag (_litMaterial v))
         (with_wireframe flag (_unlitMaterial v))
         (mesh v) (calls v).

(** [_setGeometry(geometry)], lines 190-197. *)
Definition _setGeometry (g : nat) (v : View) : View :=
  match mesh v with
  | None =>
      mkView (_color v) (_lit v) (_wireframe v) (_litMaterial v) (_unlitMaterial v)
             (Some (mkMesh g (material_for (_lit v))))
             (calls v ++ [ViewAdd])
  | Some m =>
      mkView (_color v) (_lit v) (_wireframe v) (_litMaterial v) (_unlitMaterial v)
             (Some (mkMesh g (material m)))
             (calls v)
  end.

(** [presentLayout()], lines 199-204, when [YGNode.getDisplay()] is
    [display]. *)
Definition presentLayout (display : Display) (v : View) : View :=
  mkView (_color v) (_lit v) (_wireframe v) (_litMaterial v) (_unlitMaterial v)
         (mesh v)
         (calls v ++ [SuperPresentLayout]
            ++ match mesh v with
               | Some m =>
                   [GeometryVisible (geometry m)
                      (match display with DISPLAY_NONE => false | DISPLAY_FLEX => true end)]
               | None => []
               end).

Inductive Step :=
| SetOpacity (value : option number)
| SetColor (c : option number)
| SetLit (flag : bool)
| SetWireframe (flag : bool)
| SetGeometry (g : nat)
| PresentLayout (display : Display).

Definition step (e : Step) (v : View) : View :=
  match e with
  | SetOpacity value => set_opacity value v
  | SetColor c => _setColor c v
  | SetLit flag => _setLit flag v
  | SetWireframe flag => _setWireframe flag v
  | SetGeometry g => _setGeometry g v
  | PresentLayout display => presentLayout display v
  end.

Fixpoint run (es : list Step) (v : View) : View :=
  match es with
  | [] => v
  | e :: es' => run es' (step e v)
  end.

(** The flag of the last [SetLit] of a history, [b] when there is none, and
    the geometry of its last [SetGeometry], [g] when there is none. *)
Fixpoint lit_after (es : list Step) (b : bool) : bool :=
  match es with
  | [] => b
  | SetLit flag :: es' => lit_after es' flag
  | _ :: es' => lit_after es' b
  end.

Fixpoint geometry_after (es : list Step) (g : option nat) : option nat :=
  match es with
  | [] => g
  | SetGeometry g' :: es' => geometry_after es' (Some g')
  | _ :: es' => geometry_after es' g
  end.

(** The opacity the last opacity assignment of a history leaves, [o] when
    there is none: the value assigned, or 1 when it was [null]. *)
Fixpoint opacity_after (es : list Step) (o : number) : number :=
  match es with
  | [] => o
  | SetOpacity (Some x) :: es' => opacity_after es' x
  | SetOpacity None :: es' => opacity_after es' one
  | _ :: es' => opacity_after es' o
  end.

Definition adds (cs : list Call) : nat :=
  length (List.filter (fun c => match c with ViewAdd => true | _ => false end) cs).

(** The mesh, if there is one, uses the material [_lit] selects. *)
Definition mesh_follows_lit (v : View) : Prop :=
  forall m, mesh v = Some m -> material m = material_for (_lit v).

(** Both materials are the same, and show [_wireframe] and [_color]. *)
Definition materials_in_step (v : View) : Prop :=
  _litMaterial v = _unlitMaterial v /\
  wireframe (_litMaterial v) = _wireframe v /\
  color (_litMaterial v) = default white (_color v).

End Numbers.

End Appearance.

(** ** Equations of the methods *)

Ltac unfold_js :=
  unfold dispose, settle, onFulfilled, onRejected, releaseTexture,
    assignMaterialMaps, getTextureForURL, addReference, removeReference,
    mark_settled, set_textureURL, set_loadingURL, set_texture, set_materials,
    set_mesh_geometry, when_, catch, seq, read, modify, emit, ret, throw.

Ltac destruct_world w :=
  let o := fresh "o" in
  destruct w as [o ? ?]; destruct o; simpl in *.

Lemma truthy_url_Some (url : option string) :
  truthy_url url = true -> exists a s, url = Some (String a s).
Proof.
  destruct url as [[|a s]|]; simpl; try discriminate. eauto.
Qed.

Lemma settle_rejected_eq (w : World) (i : nat) (url : string) (err : JsError) :
  requests w !! i = Some (mkRequest url false) ->
  settle i (Rejected err) w =
    (Return tt,
     {| this := {| _textureURL := _textureURL (this w);
                   _loadingURL := None;
                   _texture := _texture (this w);
                   _litMaterial := _litMaterial (this w);
                   _unlitMaterial := _unlitMaterial (this w);
                   mesh := mesh (this w);
                   _geometry := _geometry (this w) |};
        requests := <[i := mkRequest url true]> (requests w);
        trace := trace w ++ [RemoveReference url; ConsoleError err] |}).
Proof.
  intros H. unfold settle. rewrite H. simpl. unfold_js. simpl.
  rewrite <- app_assoc. reflexivity.
Qed.

Lemma settle_fulfilled_stale_eq (w : World) (i : nat) (url : string) (texture : option Texture) :
  requests w !! i = Some (mkRequest url false) ->
  _loadingURL (this w) <> Some url ->
  settle i (Fulfilled texture) w =
    (Return tt,
     {| this := this w;
        requests := <[i := mkRequest url true]> (requests w);
        trace := trace w ++ [RemoveReference url] |}).
Proof.
  intros H Hne. unfold settle. rewrite H. simpl. unfold_js. simpl.
  rewrite bool_decide_eq_false_2 by assumption. reflexivity.
Qed.

Lemma settle_fulfilled_current_eq (w : World) (i : nat) (url : string) (tex : Texture) :
  requests w !! i = Some (mkRequest url false) ->
  _loadingURL (this w) = Some url ->
  settle i (Fulfilled (Some tex)) w =
    (Return tt,
     {| this := {| _textureURL := Some url;
                   _loadingURL := None;
                   _texture := Some tex;
                   _litMaterial := Material.mk (Some tex) true;
                   _unlitMaterial := Material.mk (Some tex) true;
                   mesh := mesh (this w);
                   _geometry := _geometry (this w) |};
        requests := <[i := mkRequest url true]> (requests w);
        trace := trace w ++ releases (_textureURL (this w))
                   ++ [TextureNeedsUpdate tex; MaterialMaps (Some tex)] |}).
Proof.
  intros H Hcur. unfold settle. rewrite H. simpl.
  destruct_world w. subst. unfold_js. simpl.
  rewrite bool_decide_eq_true_2 by reflexivity.
  destruct _textureURL0 as [[|a s]|]; simpl;
    rewrite <- ?app_assoc; reflexivity.
Qed.

(** A fulfilment with [null]: the handler stops at
    [this._texture.needsUpdate = true] and the [.catch] logs the error. *)
Lemma settle_fulfilled_null_eq (w : World) (i : nat) (url : string) :
  requests w !! i = Some (mkRequest url false) ->
  _loadingURL (this w) = Some url ->
  settle i (Fulfilled None) w =
    (Return tt,
     {| this := {| _textureURL := _textureURL (this w);
                   _loadingURL := None;
                   _texture := None;
                   _litMaterial := _litMaterial (this w);
                   _unlitMaterial := _unlitMaterial (this w);
                   mesh := mesh (this w);
                   _geometry := _geometry (this w) |};
        requests := <[i := mkRequest url true]> (requests w);
        trace := trace w ++ releases (_textureURL (this w))
                   ++ [ConsoleError TypeError] |}).
Proof.
  intros H Hcur. unfold settle. rewrite H. simpl.
  destruct_world w. subst. unfold_js. simpl.
  rewrite bool_decide_eq_true_2 by reflexivity.
  destruct _textureURL0 as [[|a s]|]; simpl;
    rewrite <- ?app_assoc; reflexivity.
Qed.

Lemma settle_idle (w : World) (i : nat) (s : Settlement) :
  (forall r, requests w !! i = Some r -> req_settled r = true) ->
  settle i s w = (Return tt, w).
Proof.
  intros H. unfold settle. destruct (requests w !! i) as [r|] eqn:E; [|reflexivity].
  rewrite (H r eq_refl). reflexivity.
Qed.

Lemma dispose_eq (w : World) :
  dispose w =
    (Return tt,
     {| this := {| _textureURL := if bool_decide (is_Some (_texture (this w)))
                                     && truthy_url (_textureURL (this w))
                                  then None else _textureURL (this w);
                   _loadingURL := _loadingURL (this w);
                   _texture := None;
                   _litMaterial := _litMaterial (this w);
                   _unlitMaterial := _unlitMaterial (this w);
                   mesh := None;
                   _geometry := None |};
        requests := requests w;
        trace := trace w
                   ++ (if bool_decide (is_Some (_texture (this w)))
                       then releases (_textureURL (this w)) else [])
                   ++ [MaterialDispose LitMaterial; MaterialDispose UnlitMaterial;
                       SuperDispose] |}).
Proof.
  destruct_world w. unfold_js. simpl.
  destruct _texture0 as [tex|]; simpl.
  - destruct _textureURL0 as [[|a s]|]; simpl; rewrite <- ?app_assoc; reflexivity.
  - rewrite <- ?app_assoc. reflexivity.
Qed.

Section Binding.

Variable extractURL : ResourceSpecifier -> option string.

Lemma setTexture_url_eq (value : ResourceSpecifier) (url : string) (w : World) :
  resolves_to extractURL value url ->
  _setTexture extractURL value w =
    (Return tt,
     {| this := {| _textureURL := _textureURL (this w);
                   _loadingURL := Some url;
                   _texture := _texture (this w);
                   _litMaterial := _litMaterial (this w);
                   _unlitMaterial := _unlitMaterial (this w);
                   mesh := mesh (this w);
                   _geometry := _geometry (this w) |};
        requests := requests w ++ [mkRequest url false];
        trace := trace w ++ [AddReference url; GetTextureForURL url] |}).
Proof.
  intros (Ht & He & Hu). unfold _setTexture. rewrite Ht, He. simpl.
  destruct url as [|a s]; [discriminate|].
  unfold_js. simpl. rewrite <- app_assoc. reflexivity.
Qed.

Lemma setTexture_empty_eq (value : ResourceSpecifier) (w : World) :
  truthy value = false ->
  _setTexture extractURL value w =
    (Return tt,
     {| this := {| _textureURL := if bool_decide (is_Some (_texture (this w)))
                                     && truthy_url (_textureURL (this w))
                                  then None else _textureURL (this w);
                   _loadingURL := _loadingURL (this w);
                   _texture := None;
                   _litMaterial := Material.mk None true;
                   _unlitMaterial := Material.mk None true;
                   mesh := mesh (this w);
                   _geometry := _geometry (this w) |};
        requests := requests w;
        trace := trace w
                   ++ (if bool_decide (is_Some (_texture (this w)))
                       then releases (_textureURL (this w)) else [])
                   ++ [MaterialMaps None] |}).
Proof.
  intros Ht. unfold _setTexture. rewrite Ht. simpl.
  destruct_world w. unfold_js. simpl.
  destruct _texture0 as [tex|]; simpl.
  - destruct _textureURL0 as [[|a s]|]; simpl; rewrite <- ?app_assoc; reflexivity.
  - reflexivity.
Qed.

Lemma setTexture_invalid_eq (value : ResourceSpecifier) (w : World) :
  truthy value = true ->
  truthy_url (extractURL value) = false ->
  _setTexture extractURL value w = (Throw (InvalidTextureValue value), w).
Proof.
  intros Ht Hu. unfold _setTexture. rewrite Ht. simpl.
  destruct (extractURL value) as [[|a s]|]; try reflexivity. discriminate.
Qed.

(** Every way a settlement can go, by the equation that gives its result. *)
Ltac settle_cases i s w :=
  let url := fresh "url" in
  let tex := fresh "tex" in
  let err := fresh "err" in
  let Hreq := fresh "Hreq" in
  let Hcur := fresh "Hcur" in
  destruct (requests w !! i) as [[url [|]]|] eqn:Hreq;
  [ rewrite (settle_idle w i s)
      by (let Hx := fresh in intros ? Hx; rewrite Hreq in Hx; inversion Hx; reflexivity)
  | destruct s as [[tex|]|err];
    [ destruct (decide (_loadingURL (this w) = Some url)) as [Hcur|Hcur];
      [ rewrite (settle_fulfilled_current_eq w i url tex Hreq Hcur)
      | rewrite (settle_fulfilled_stale_eq w i url (Some tex) Hreq Hcur) ]
    | destruct (decide (_loadingURL (this w) = Some url)) as [Hcur|Hcur];
      [ rewrite (settle_fulfilled_null_eq w i url Hreq Hcur)
      | rewrite (settle_fulfilled_stale_eq w i url None Hreq Hcur) ]
    | rewrite (settle_rejected_eq w i url err Hreq) ]
  | rewrite (settle_idle w i s)
      by (let Hx := fresh in intros ? Hx; rewrite Hreq in Hx; discriminate) ].

(** Every way a step can go. *)
Ltac step_cases e w :=
  let value := fresh "value" in
  let i := fresh "i" in
  let s := fresh "s" in
  let url := fresh "url" in
  let tex := fresh "tex" in
  let err := fresh "err" in
  let Ht := fresh "Htruthy" in
  let Hu := fresh "Hurl" in
  let Hreq := fresh "Hreq" in
  let Hcur := fresh "Hcur" in
  unfold step, exec;
  destruct e as [value | i s | ];
  [ destruct (truthy value) eqn:Ht;
    [ destruct (truthy_url (extractURL value)) eqn:Hu;
      [ let a := fresh "a" in
        let k := fresh "k" in
        destruct (truthy_url_Some _ Hu) as (a & k & Hk);
        rewrite (setTexture_url_eq value (String a k) w)
          by (repeat split; [exact Ht | exact Hk])
      | rewrite (setTexture_invalid_eq value w Ht Hu) ]
    | rewrite (setTexture_empty_eq value w Ht) ]
  | settle_cases i s w
  | rewrite (dispose_eq w) ];
  simpl.

Lemma step_consistent (e : Step) (w : World) :
  nonnull_resolution e = true ->
  consistent w -> consistent (step extractURL e w).
Proof.
  intros Hnn (Hiff & Hkey & Hreqs).
  step_cases e w; unfold consistent; simpl.
  - (* bind, resolvable *)
    repeat split; try tauto. apply Forall_app. split; [exact Hreqs|].
    repeat constructor.
  - repeat split; tauto.
  - (* bind, empty *)
    destruct (_texture (this w)) as [tex|] eqn:Etex; simpl.
    + destruct Hkey as [Hkey|Hkey].
      * exfalso. apply Hiff in Hkey. discriminate.
      * rewrite Hkey. repeat split; auto.
    + repeat split; auto; tauto.
  - repeat split; tauto.
  - (* fulfilled, current *)
    repeat split; try discriminate.
    + right. apply (Forall_lookup_1 _ _ _ _ Hreqs Hreq).
    + apply Forall_insert; [exact Hreqs|].
      apply (Forall_lookup_1 _ _ _ _ Hreqs Hreq).
  - (* fulfilled, stale *)
    repeat split; try tauto. apply Forall_insert; [exact Hreqs|].
    apply (Forall_lookup_1 _ _ _ _ Hreqs Hreq).
  - discriminate.
  - discriminate.
  - (* rejected *)
    repeat split; try tauto. apply Forall_insert; [exact Hreqs|].
    apply (Forall_lookup_1 _ _ _ _ Hreqs Hreq).
  - repeat split; tauto.
  - (* dispose *)
    destruct (_texture (this w)) as [tex|] eqn:Etex; simpl.
    + destruct Hkey as [Hkey|Hkey].
      * exfalso. apply Hiff in Hkey. discriminate.
      * rewrite Hkey. repeat split; auto.
    + repeat split; auto; tauto.
Qed.

Lemma run_consistent (es : list Step) (w : World) :
  Forall (fun e => nonnull_resolution e = true) es ->
  consistent w -> consistent (run extractURL es w).
Proof.
  intros Hes. revert w. induction Hes as [|e es He _ IH]; intros w Hw.
  - exact Hw.
  - simpl. apply IH. apply step_consistent; assumption.
Qed.

Lemma construct_consistent : consistent construct.
Proof.
  unfold consistent. simpl. repeat split; auto.
Qed.

Lemma step_materials_follow (e : Step) (w : World) :
  nonnull_resolution e = true -> is_dispose e = false ->
  materials_follow w -> materials_follow (step extractURL e w).
Proof.
  intros Hnn Hnd (Hlit & Hunlit).
  step_cases e w; unfold materials_follow; simpl; auto; discriminate.
Qed.

Lemma run_materials_follow (es : list Step) (w : World) :
  Forall (fun e => nonnull_resolution e = true /\ is_dispose e = false) es ->
  materials_follow w -> materials_follow (run extractURL es w).
Proof.
  intros Hes. revert w. induction Hes as [|e es [He1 He2] _ IH]; intros w Hw.
  - exact Hw.
  - simpl. apply IH. apply step_materials_follow; assumption.
Qed.

Lemma in_flight_issue (rs : list Request) (url : string) :
  length (in_flight (rs ++ [mkRequest url false])) = S (length (in_flight rs)).
Proof.
  unfold in_flight. rewrite List.filter_app, length_app. simpl. lia.
Qed.

Lemma in_flight_settle (rs : list Request) (i : nat) (url : string) :
  rs !! i = Some (mkRequest url false) ->
  length (in_flight rs) = S (length (in_flight (<[i := mkRequest url true]> rs))).
Proof.
  revert i. induction rs as [|r rs IH]; intros i H.
  - discriminate.
  - destruct i as [|i]; simpl in *.
    + injection H as ->. reflexivity.
    + destruct (negb (req_settled r)); simpl; rewrite (IH i H); reflexivity.
Qed.

(** The ledger of references: what was added and not yet removed is what
    the view holds, one reference per request in flight and one for the
    bound key. *)
Lemma step_ledger (e : Step) (w : World) :
  nonnull_resolution e = true ->
  consistent w ->
  length (additions (trace w)) = length (removals (trace w)) + held w ->
  let w' := step extractURL e w in
  length (additions (trace w')) = length (removals (trace w')) + held w'.
Proof.
  intros Hnn (Hiff & Hkey & Hreqs) Hw. unfold held in *.
  step_cases e w; unfold additions, removals in *; simpl;
    rewrite ?omap_app, ?length_app; simpl; try discriminate; try lia.
  - rewrite in_flight_issue. lia.
  - destruct (_texture (this w)) as [tex|] eqn:Etex; simpl.
    + destruct Hkey as [Hkey|Hkey];
        [apply Hiff in Hkey; discriminate|].
      rewrite Hkey.
      destruct (truthy_url_Some _ Hkey) as (a & k & Ek).
      rewrite Ek in *. simpl. lia.
    + rewrite (proj1 Hiff eq_refl) in *. simpl. lia.
  - rewrite (in_flight_settle _ _ _ Hreq) in Hw.
    destruct Hkey as [Hkey|Hkey].
    + rewrite Hkey in *. simpl. lia.
    + destruct (truthy_url_Some _ Hkey) as (a & k & Ek).
      rewrite Ek in *. simpl. lia.
  - rewrite (in_flight_settle _ _ _ Hreq) in Hw. lia.
  - rewrite (in_flight_settle _ _ _ Hreq) in Hw. lia.
  - destruct (_texture (this w)) as [tex|] eqn:Etex; simpl.
    + destruct Hkey as [Hkey|Hkey];
        [apply Hiff in Hkey; discriminate|].
      rewrite Hkey.
      destruct (truthy_url_Some _ Hkey) as (a & k & Ek).
      rewrite Ek in *. simpl. lia.
    + rewrite (proj1 Hiff eq_refl) in *. simpl. lia.
Qed.

Lemma reference_ledger (es : list Step) :
  Forall (fun e => nonnull_resolution e = true) es ->
  let w := run extractURL es construct in
  length (additions (trace w)) = length (removals (trace w)) + held w.
Proof.
  intros Hes.
  assert (G : forall w0, consistent w0 ->
    length (additions (trace w0)) = length (removals (trace w0)) + held w0 ->
    length (additions (trace (run extractURL es w0)))
    = length (removals (trace (run extractURL es w0)))
      + held (run extractURL es w0)).
  { induction Hes as [|e es He _ IH]; intros w0 Hc Hl.
    - exact Hl.
    - simpl. apply IH.
      + apply step_consistent; assumption.
      + apply step_ledger; assumption. }
  apply G; [apply construct_consistent | reflexivity].
Qed.

Lemma run_app (es1 es2 : list Step) (w : World) :
  run extractURL (es1 ++ es2) w = run extractURL es2 (run extractURL es1 w).
Proof.
  revert w. induction es1 as [|e es1 IH]; intros w; simpl; [reflexivity | apply IH].
Qed.

Lemma dispose_holds_nothing (w : World) :
  consistent w ->
  in_flight (requests w) = [] ->
  held (step extractURL Dispose w) = 0.
Proof.
  intros (Hiff & Hkey & _) Hfl. unfold step, exec, held.
  rewrite dispose_eq. simpl. rewrite Hfl. simpl.
  destruct (_texture (this w)) as [tex|] eqn:Etex; simpl.
  - destruct Hkey as [Hkey|Hkey]; [apply Hiff in Hkey; discriminate|].
    rewrite Hkey. reflexivity.
  - rewrite (proj1 Hiff eq_refl). reflexivity.
Qed.

(** Where the references do balance: a [dispose()] that comes when no
    request is in flight leaves as many [removeReference] calls as
    [addReference] calls. *)
Lemma dispose_after_settlement_balances (es : list Step) :
  Forall (fun e => nonnull_resolution e = true) es ->
  in_flight (requests (run extractURL es construct)) = [] ->
  let w := run extractURL (es ++ [Dispose]) construct in
  length (additions (trace w)) = length (removals (trace w)).
Proof.
  intros Hes Hfl w.
  assert (Hes' : Forall (fun e => nonnull_resolution e = true) (es ++ [Dispose])).
  { apply Forall_app. split; [exact Hes | repeat constructor]. }
  pose proof (reference_ledger _ Hes') as Hl. simpl in Hl. fold w in Hl.
  assert (Hh : held w = 0).
  { unfold w. rewrite run_app. simpl. apply dispose_holds_nothing; [|exact Hfl].
    apply run_consistent; [exact Hes | apply construct_consistent]. }
  lia.
Qed.

(** ** The setter *)

(** C8. A truthy specifier for which [extractURL] gives nothing truthy
    makes [_setTexture] throw, before any call on the texture manager:
    the world (fields, requests, trace) is the one before the call. *)
Theorem setTexture_invalid_throws (value : ResourceSpecifier) (w : World) :
  truthy value = true ->
  truthy_url (extractURL value) = false ->
  _setTexture extractURL value w = (Throw (InvalidTextureValue value), w).
Proof.
  intros Ht Hu. apply setTexture_invalid_eq; assumption.
Qed.

(** C3, as the code has it. A bind with the key that is bound or loading
    is carried out like any other: [_loadingURL] becomes the key, one
    [addReference] and one [getTextureForURL] are issued for it and a new
    request is in flight; bound key, texture and materials stay. *)
Theorem setTexture_same_key (value : ResourceSpecifier) (key : string) (w : World) :
  resolves_to extractURL value key ->
  _textureURL (this w) = Some key \/ _loadingURL (this w) = Some key ->
  _setTexture extractURL value w =
    (Return tt,
     {| this := {| _textureURL := _textureURL (this w);
                   _loadingURL := Some key;
                   _texture := _texture (this w);
                   _litMaterial := _litMaterial (this w);
                   _unlitMaterial := _unlitMaterial (this w);
                   mesh := mesh (this w);
                   _geometry := _geometry (this w) |};
        requests := requests w ++ [mkRequest key false];
        trace := trace w ++ [AddReference key; GetTextureForURL key] |}).
Proof.
  intros Hr _. apply setTexture_url_eq. exact Hr.
Qed.

(** C6, as the code has it. [dispose()] on a view with a texture bound to
    [key] issues exactly one [removeReference(key)] and clears texture and
    key; the view is not inert afterwards: a later bind with a resolvable
    specifier sets [_loadingURL], calls [addReference] and starts a fetch. *)
Theorem dispose_releases_not_inert
    (w : World) (tex : Texture) (key : string)
    (value : ResourceSpecifier) (url : string) :
  _texture (this w) = Some tex ->
  _textureURL (this w) = Some key ->
  truthy_url (Some key) = true ->
  resolves_to extractURL value url ->
  let wd := step extractURL Dispose w in
  let wb := step extractURL (SetTexture value) wd in
  removals (trace wd) = removals (trace w) ++ [key] /\
  _texture (this wd) = None /\
  _textureURL (this wd) = None /\
  trace wb = trace wd ++ [AddReference url; GetTextureForURL url] /\
  requests wb = requests wd ++ [mkRequest url false] /\
  _loadingURL (this wb) = Some url.
Proof.
  intros Htex Hkey Hk Hr wd wb.
  assert (Hd : wd = snd (dispose w)) by reflexivity.
  assert (Hb : wb = snd (_setTexture extractURL value wd)) by reflexivity.
  rewrite (setTexture_url_eq value url wd Hr) in Hb.
  rewrite dispose_eq in Hd. simpl in Hd, Hb.
  rewrite Htex, Hkey in Hd. simpl in Hd.
  destruct key as [|a s]; [discriminate|]. simpl in Hd.
  rewrite Hb. simpl. rewrite Hd. simpl.
  repeat split; try reflexivity.
  unfold removals. rewrite omap_app. simpl. reflexivity.
Qed.


(** ** Settlement *)

(** C7. A fulfilment with a texture of the request for [newKey]: while
    the request is current ([_loadingURL] is [newKey]) the previous bound
    key, if set, is released, then texture, key and both material maps are
    set and [_loadingURL] is cleared; once it is stale the only effect is
    [removeReference(newKey)], and no field of the view changes. *)
Theorem settle_fulfilled_postcondition
    (w : World) (i : nat) (newKey : string) (tex : Texture) :
  requests w !! i = Some (mkRequest newKey false) ->
  (_loadingURL (this w) = Some newKey ->
   settle i (Fulfilled (Some tex)) w =
     (Return tt,
      {| this := {| _textureURL := Some newKey;
                    _loadingURL := None;
                    _texture := Some tex;
                    _litMaterial := Material.mk (Some tex) true;
                    _unlitMaterial := Material.mk (Some tex) true;
                    mesh := mesh (this w);
                    _geometry := _geometry (this w) |};
         requests := <[i := mkRequest newKey true]> (requests w);
         trace := trace w ++ releases (_textureURL (this w))
                    ++ [TextureNeedsUpdate tex; MaterialMaps (Some tex)] |}))
  /\
  (_loadingURL (this w) <> Some newKey ->
   settle i (Fulfilled (Some tex)) w =
     (Return tt,
      {| this := this w;
         requests := <[i := mkRequest newKey true]> (requests w);
         trace := trace w ++ [RemoveReference newKey] |})).
Proof.
  intros Hreq. split; intros Hcur.
  - apply settle_fulfilled_current_eq; assumption.
  - apply settle_fulfilled_stale_eq; assumption.
Qed.

(** One settlement, seen from the materials: it leaves [_loadingURL] or
    clears it, keeps the key of every request, and gives the materials a
    texture only when it fulfils the request [_loadingURL] names. *)
Lemma settle_notifies (i : nat) (s : Settlement) (w : World) :
  let w' := step extractURL (Settle i s) w in
  (_loadingURL (this w') = _loadingURL (this w) \/ _loadingURL (this w') = None) /\
  (req_url <$> requests w' = req_url <$> requests w) /\
  (notifications (trace w') = notifications (trace w) \/
   exists tex url,
     s = Fulfilled (Some tex) /\
     req_url <$> (requests w !! i) = Some url /\
     _loadingURL (this w) = Some url /\
     _loadingURL (this w') = None /\
     notifications (trace w') = notifications (trace w) ++ [Some tex]).
Proof.
  assert (Hins : forall url b,
    requests w !! i = Some (mkRequest url b) ->
    req_url <$> <[i := mkRequest url true]> (requests w) = req_url <$> requests w).
  { intros url b H. rewrite list_fmap_insert. simpl.
    apply list_insert_id. rewrite list_lookup_fmap, H. reflexivity. }
  unfold step, exec. settle_cases i s w; simpl;
    unfold notifications; rewrite ?omap_app; simpl; rewrite ?app_nil_r;
    try (split; [auto | split; [eauto | left; reflexivity]]).
  - split; [auto | split; [eauto|]]. right. exists tex, url.
    repeat split; auto.
    destruct (_textureURL (this w)) as [[|a k]|]; simpl;
      rewrite ?app_nil_r; reflexivity.
  - split; [auto | split; [eauto|]]. left.
    destruct (_textureURL (this w)) as [[|a k]|]; simpl;
      rewrite ?app_nil_r; reflexivity.
Qed.

Lemma settlements_notify (k : string) (ss : list (nat * Settlement)) (w : World) :
  _loadingURL (this w) = None \/ _loadingURL (this w) = Some k ->
  exists l,
    notifications (trace (run extractURL (settlements ss) w))
    = notifications (trace w) ++ l /\
    (l = [] \/
     _loadingURL (this w) = Some k /\
     exists i tex,
       l = [Some tex] /\ In (i, Fulfilled (Some tex)) ss /\
       req_url <$> (requests w !! i) = Some k).
Proof.
  revert w. induction ss as [|[i s] ss IH]; intros w Hload.
  - exists []. simpl. rewrite app_nil_r. auto.
  - simpl.
    destruct (settle_notifies i s w) as (Hl & Hrq & Hn).
    set (w' := step extractURL (Settle i s) w) in *.
    assert (Hload' : _loadingURL (this w') = None \/ _loadingURL (this w') = Some k).
    { destruct Hl as [Hl|Hl]; rewrite Hl; auto. }
    destruct (IH w' Hload') as (l & Heq & Hcases).
    destruct Hn as [Hn | (tex & url & Hs & Hurl & Hcur & Hnone & Hn)].
    + exists l. rewrite Heq, Hn. split; [reflexivity|].
      destruct Hcases as [->| (Hk & j & tex & -> & Hin & Hj)]; [auto|].
      right. split.
      * destruct Hl as [Hl|Hl]; congruence.
      * exists j, tex. repeat split; auto.
        rewrite <- list_lookup_fmap, <- Hrq, list_lookup_fmap. exact Hj.
    + destruct Hcases as [->| (Hk & _)]; [|congruence].
      exists [Some tex]. rewrite Heq, Hn, app_nil_r. split; [reflexivity|].
      right. destruct Hload as [Hload|Hload]; [congruence|].
      split; [exact Hload|]. exists i, tex. subst s.
      repeat split; auto. congruence.
Qed.

(** C2. After bind(K1) and then bind(K2), whatever way and order the
    requests settle in, the materials are given a texture at most once,
    and that texture is the fulfilment of a request for K2; with K1 other
    than K2 it is never the fulfilment of K1's request. *)
Theorem supersession
    (value1 value2 : ResourceSpecifier) (k1 k2 : string) (w : World)
    (ss : list (nat * Settlement)) :
  resolves_to extractURL value1 k1 ->
  resolves_to extractURL value2 k2 ->
  let w2 := run extractURL [SetTexture value1; SetTexture value2] w in
  let wf := run extractURL (settlements ss) w2 in
  requests w2 = requests w ++ [mkRequest k1 false; mkRequest k2 false] /\
  exists l,
    notifications (trace wf) = notifications (trace w) ++ l /\
    (l = [] \/
     exists i tex,
       l = [Some tex] /\ In (i, Fulfilled (Some tex)) ss /\
       req_url <$> (requests w2 !! i) = Some k2 /\
       (k1 <> k2 -> i <> length (requests w))).
Proof.
  intros H1 H2 w2 wf.
  assert (E2 : requests w2 = requests w ++ [mkRequest k1 false; mkRequest k2 false]
               /\ _loadingURL (this w2) = Some k2
               /\ notifications (trace w2) = notifications (trace w)).
  { unfold w2. simpl. unfold step, exec.
    rewrite (setTexture_url_eq value1 k1 w H1). simpl.
    rewrite (setTexture_url_eq value2 k2 _ H2). simpl.
    rewrite <- app_assoc. unfold notifications. rewrite !omap_app. simpl.
    rewrite !app_nil_r. auto. }
  destruct E2 as (Erq & Eload & Entf). split; [exact Erq|].
  destruct (settlements_notify k2 ss w2 (or_intror Eload)) as (l & Heq & Hcases).
  exists l. split; [rewrite <- Entf; exact Heq|].
  destruct Hcases as [->| (_ & i & tex & -> & Hin & Hi)]; [auto|].
  right. exists i, tex. repeat split; auto.
  intros Hne ->. rewrite Erq in Hi.
  rewrite lookup_app_r in Hi by lia.
  rewrite Nat.sub_diag in Hi. simpl in Hi. congruence.
Qed.

(** ** Invariants of the view *)

(** C9. After any sequence of binds, settlements and disposals in which
    no load is fulfilled with [null], [_texture] is [null] exactly when
    [_textureURL] is. *)
Theorem texture_iff_textureURL (es : list Step) :
  Forall (fun e => nonnull_resolution e = true) es ->
  let w := run extractURL es construct in
  _texture (this w) = None <-> _textureURL (this w) = None.
Proof.
  intros Hes w.
  apply (run_consistent es construct Hes construct_consistent).
Qed.

(** ** References, key by key *)

Lemma count_key_app (k : string) (l1 l2 : list string) :
  count_key k (l1 ++ l2) = count_key k l1 + count_key k l2.
Proof.
  unfold count_key. rewrite List.filter_app, length_app. reflexivity.
Qed.

Lemma count_key_cons (k x : string) (l : list string) :
  count_key k (x :: l) = count_key k [x] + count_key k l.
Proof.
  apply (count_key_app k [x] l).
Qed.

Lemma count_key_nil (k : string) : count_key k [] = 0.
Proof. reflexivity. Qed.

Lemma in_flight_for_issue (k : string) (rs : list Request) (url : string) :
  in_flight_for k (rs ++ [mkRequest url false])
  = in_flight_for k rs + count_key k [url].
Proof.
  unfold in_flight_for, in_flight.
  rewrite List.filter_app, fmap_app, count_key_app. reflexivity.
Qed.

Lemma in_flight_urls_settle (rs : list Request) (i : nat) (url : string) :
  rs !! i = Some (mkRequest url false) ->
  exists l1 l2,
    req_url <$> in_flight rs = l1 ++ url :: l2 /\
    req_url <$> in_flight (<[i := mkRequest url true]> rs) = l1 ++ l2.
Proof.
  unfold in_flight. revert i. induction rs as [|r rs IH]; intros i H.
  - discriminate.
  - destruct i as [|i]; simpl in *.
    + injection H as ->. simpl. eexists [], _. split; reflexivity.
    + destruct (IH i H) as (l1 & l2 & E1 & E2).
      destruct (negb (req_settled r)); simpl.
      * exists (req_url r :: l1), l2.
        split; simpl; f_equal; [exact E1 | exact E2].
      * exists l1, l2. auto.
Qed.

Lemma in_flight_for_settle (k : string) (rs : list Request) (i : nat) (url : string) :
  rs !! i = Some (mkRequest url false) ->
  in_flight_for k rs
  = count_key k [url] + in_flight_for k (<[i := mkRequest url true]> rs).
Proof.
  intros H. destruct (in_flight_urls_settle rs i url H) as (l1 & l2 & E1 & E2).
  unfold in_flight_for. rewrite E1, E2, !count_key_app, (count_key_cons k url). lia.
Qed.

Lemma releases_removals (key : option string) :
  truthy_url key = true -> removals (releases key) = option_list key.
Proof.
  intros H. destruct (truthy_url_Some _ H) as (a & k & ->). reflexivity.
Qed.

Lemma releases_additions (key : option string) : additions (releases key) = [].
Proof.
  destruct key as [[|a k]|]; reflexivity.
Qed.

Lemma releases_notifications (key : option string) : notifications (releases key) = [].
Proof.
  destruct key as [[|a k]|]; reflexivity.
Qed.

Lemma releases_fetches (key : option string) : fetches (releases key) = [].
Proof.
  destruct key as [[|a k]|]; reflexivity.
Qed.

Lemma step_ledger_for (k : string) (e : Step) (w : World) :
  nonnull_resolution e = true ->
  consistent w ->
  ledger_for k w -> ledger_for k (step extractURL e w).
Proof.
  intros Hnn (Hiff & Hkey & Hreqs) Hw. unfold ledger_for, bound_to in *.
  assert (Ha : forall key, omap added (releases key) = [])
    by exact releases_additions.
  assert (Hr : truthy_url (_textureURL (this w)) = true ->
               omap released (releases (_textureURL (this w)))
               = option_list (_textureURL (this w)))
    by exact (releases_removals _).
  assert (Hbound : _texture (this w) <> None ->
                   truthy_url (_textureURL (this w)) = true).
  { intros Hne. destruct Hkey as [Hkey|Hkey]; [apply Hiff in Hkey; tauto | exact Hkey]. }
  assert (Hfree : _texture (this w) = None -> _textureURL (this w) = None)
    by apply Hiff.
  step_cases e w; unfold additions, removals in *;
    rewrite ?omap_app, ?count_key_app; simpl;
    rewrite ?count_key_nil; try discriminate; try lia.
  - rewrite in_flight_for_issue. lia.
  - destruct (_texture (this w)) as [tex|] eqn:Etex; simpl.
    + rewrite Ha, Hr, Hbound by (auto; discriminate).
      simpl. rewrite ?count_key_nil. lia.
    + rewrite ?count_key_nil. lia.
  - rewrite (in_flight_for_settle k _ _ _ Hreq) in Hw. rewrite Ha.
    destruct Hkey as [Hkey|Hkey].
    + rewrite Hkey in *. simpl in *. rewrite ?count_key_nil in *. lia.
    + rewrite (Hr Hkey), ?count_key_nil. lia.
  - rewrite (in_flight_for_settle k _ _ _ Hreq) in Hw. lia.
  - rewrite (in_flight_for_settle k _ _ _ Hreq) in Hw. lia.
  - destruct (_texture (this w)) as [tex|] eqn:Etex; simpl.
    + rewrite Ha, Hr, Hbound by (auto; discriminate).
      simpl. rewrite ?count_key_nil. lia.
    + rewrite ?count_key_nil. lia.
Qed.

Lemma run_ledger_for (k : string) (es : list Step) (w : World) :
  Forall (fun e => nonnull_resolution e = true) es ->
  consistent w -> ledger_for k w ->
  ledger_for k (run extractURL es w).
Proof.
  intros Hes. revert w. induction Hes as [|e es He _ IH]; intros w Hc Hl.
  - exact Hl.
  - simpl. apply IH.
    + apply step_consistent; assumption.
    + apply step_ledger_for; assumption.
Qed.

Lemma construct_ledger_for (k : string) : ledger_for k construct.
Proof. reflexivity. Qed.

(** X1. In every state the view reaches while loads are fulfilled with
    textures only, and for every key, the [addReference] calls for the key
    are its [removeReference] calls plus the requests for it in flight plus
    one if it is the bound key. *)
Theorem references_accounted_per_key (es : list Step) (k : string) :
  Forall (fun e => nonnull_resolution e = true) es ->
  let w := run extractURL es construct in
  count_key k (additions (trace w))
  = count_key k (removals (trace w)) + in_flight_for k (requests w)
    + bound_to k (this w).
Proof.
  intros Hes. apply (run_ledger_for k es construct Hes).
  - apply construct_consistent.
  - apply construct_ledger_for.
Qed.

(** What one step appends to the trace never holds both an [addReference]
    and a [removeReference]. *)
Lemma step_trace_extends (e : Step) (w : World) :
  exists new,
    trace (step extractURL e w) = trace w ++ new /\
    (additions new = [] \/ removals new = []).
Proof.
  step_cases e w;
    first [ by (exists []; rewrite app_nil_r; auto)
          | eexists; split; [reflexivity|] ].
  - right. reflexivity.
  - left. unfold additions. rewrite omap_app.
    destruct (bool_decide _); [rewrite (releases_additions _)|]; reflexivity.
  - left. unfold additions. rewrite omap_app, (releases_additions _). reflexivity.
  - left. reflexivity.
  - left. unfold additions. rewrite omap_app, (releases_additions _). reflexivity.
  - left. reflexivity.
  - left. reflexivity.
  - left. unfold additions. rewrite omap_app.
    destruct (bool_decide _); [rewrite (releases_additions _)|]; reflexivity.
Qed.

Lemma step_never_below_zero (e : Step) (w : World) :
  nonnull_resolution e = true ->
  consistent w ->
  (forall k, ledger_for k w) ->
  never_below_zero w -> never_below_zero (step extractURL e w).
Proof.
  intros Hnn Hc Hl Hsafe p k [r Hp].
  destruct (step_trace_extends e w) as (new & Et & Hnew).
  pose proof (step_ledger_for k e w Hnn Hc (Hl k)) as Hl'.
  unfold ledger_for in Hl'. rewrite Et in Hp, Hl'.
  apply app_eq_inv in Hp as [(q & Hq & _) | (q & Hq & Hnq)].
  - apply Hsafe. exists q. exact Hq.
  - subst p new. unfold additions, removals in *.
    rewrite ?omap_app, ?count_key_app in *.
    destruct Hnew as [Hnew|Hnew]; apply app_nil in Hnew as [Hq Hr];
      rewrite Hq, Hr, ?count_key_nil in *.
    + lia.
    + pose proof (Hsafe (trace w) k (reflexivity _)) as H0.
      unfold additions, removals in H0. lia.
Qed.

(** X2. While loads are fulfilled with textures only, at no point of its
    history has the view called [removeReference(k)] more often than
    [addReference(k)], for any key [k]. *)
Theorem removeReference_never_underflows (es : list Step) (p : list Event) (k : string) :
  Forall (fun e => nonnull_resolution e = true) es ->
  p `prefix_of` trace (run extractURL es construct) ->
  count_key k (removals p) <= count_key k (additions p).
Proof.
  intros Hes.
  assert (G : forall w, consistent w -> (forall k, ledger_for k w) ->
                        never_below_zero w ->
                        never_below_zero (run extractURL es w)).
  { induction Hes as [|e es He _ IH]; intros w Hc Hl Hs.
    - exact Hs.
    - simpl. apply IH.
      + apply step_consistent; assumption.
      + intros k'. apply step_ledger_for; auto.
      + apply step_never_below_zero; assumption. }
  apply (G construct construct_consistent construct_ledger_for).
  intros q k' Hq. simpl in Hq. apply prefix_nil_inv in Hq. subst q. reflexivity.
Qed.

(** X9. When [dispose()] comes with no request in flight, it leaves every
    key with as many [removeReference] calls as [addReference] calls. *)
Theorem dispose_when_idle_balances_every_key (es : list Step) (k : string) :
  Forall (fun e => nonnull_resolution e = true) es ->
  in_flight (requests (run extractURL es construct)) = [] ->
  let w := run extractURL (es ++ [Dispose]) construct in
  count_key k (additions (trace w)) = count_key k (removals (trace w)).
Proof.
  intros Hes Hfl w.
  assert (Hes' : Forall (fun e => nonnull_resolution e = true) (es ++ [Dispose])).
  { apply Forall_app. split; [exact Hes | repeat constructor]. }
  pose proof (run_ledger_for k _ construct Hes' construct_consistent
                (construct_ledger_for k)) as Hl.
  fold w in Hl. unfold ledger_for in Hl. rewrite Hl.
  pose proof (run_consistent es construct Hes construct_consistent)
    as (Hiff & Hkey & _).
  unfold w. rewrite run_app. simpl. unfold step, exec. rewrite dispose_eq.
  unfold in_flight_for, bound_to. simpl. rewrite Hfl. simpl.
  destruct (_texture (this (run extractURL es construct))) as [tex|] eqn:Etex; simpl.
  - destruct Hkey as [Hkey|Hkey]; [apply Hiff in Hkey; discriminate|].
    rewrite Hkey. simpl. rewrite !count_key_nil. lia.
  - rewrite (proj1 Hiff eq_refl). simpl. rewrite !count_key_nil. lia.
Qed.

Lemma step_fetches_additions (e : Step) (w : World) :
  fetches (trace w) = additions (trace w) ->
  fetches (trace (step extractURL e w)) = additions (trace (step extractURL e w)).
Proof.
  intros H. unfold fetches, additions in *.
  assert (Ha : forall key, omap added (releases key) = [])
    by exact releases_additions.
  assert (Hf : forall key, omap fetched (releases key) = [])
    by exact releases_fetches.
  step_cases e w; rewrite ?omap_app, ?Ha, ?Hf; simpl; rewrite ?H; try reflexivity.
  - destruct (bool_decide _); rewrite ?Ha, ?Hf; reflexivity.
  - destruct (bool_decide _); rewrite ?Ha, ?Hf; reflexivity.
Qed.

(** X6. Through any history, the keys passed to [getTextureForURL] are the
    keys passed to [addReference], in the same order: the view never fetches
    a texture it has not taken a reference for, and takes none it does not
    fetch. *)
Theorem every_fetch_holds_a_reference (es : list Step) :
  fetches (trace (run extractURL es construct))
  = additions (trace (run extractURL es construct)).
Proof.
  assert (G : forall w, fetches (trace w) = additions (trace w) ->
                        fetches (trace (run extractURL es w))
                        = additions (trace (run extractURL es w))).
  { induction es as [|e es IH]; intros w Hw; [exact Hw|].
    simpl. apply IH, step_fetches_additions, Hw. }
  apply G. reflexivity.
Qed.

Lemma step_awaits_latest (e : Step) (w : World) :
  awaits_latest w -> awaits_latest (step extractURL e w).
Proof.
  intros Hw. unfold awaits_latest in *.
  step_cases e w; try (intros ? [=]; fail); try exact Hw.
  - intros k' [= <-]. eauto.
  - intros k' Hk. destruct (Hw k' Hk) as (rs & Ers).
    rewrite Ers in Hreq |- *.
    destruct (decide (i < length rs)) as [Hlt|Hge].
    + rewrite insert_app_l by exact Hlt. eauto.
    + exfalso. apply Hcur. rewrite Hk. f_equal.
      assert (i = length rs) as ->.
      { apply lookup_lt_Some in Hreq. rewrite length_app in Hreq. simpl in Hreq. lia. }
      rewrite list_lookup_middle in Hreq by reflexivity. congruence.
  - intros k' Hk. destruct (Hw k' Hk) as (rs & Ers).
    rewrite Ers in Hreq |- *.
    destruct (decide (i < length rs)) as [Hlt|Hge].
    + rewrite insert_app_l by exact Hlt. eauto.
    + exfalso. apply Hcur. rewrite Hk. f_equal.
      assert (i = length rs) as ->.
      { apply lookup_lt_Some in Hreq. rewrite length_app in Hreq. simpl in Hreq. lia. }
      rewrite list_lookup_middle in Hreq by reflexivity. congruence.
Qed.

(** X3. Through any history, a [_loadingURL] that is set is the key of the
    request issued last, and that request has not settled. *)
Theorem loadingURL_names_latest_request (es : list Step) (k : string) :
  _loadingURL (this (run extractURL es construct)) = Some k ->
  exists rs, requests (run extractURL es construct) = rs ++ [mkRequest k false].
Proof.
  assert (G : forall w, awaits_latest w -> awaits_latest (run extractURL es w)).
  { induction es as [|e es IH]; intros w Hw; [exact Hw|].
    simpl. apply IH, step_awaits_latest, Hw. }
  apply (G construct). intros k' [=].
Qed.

(** ** What settles later *)

Lemma insert_settled_urls (rs : list Request) (i : nat) (url : string) (b : bool) :
  rs !! i = Some (mkRequest url b) ->
  req_url <$> <[i := mkRequest url true]> rs = req_url <$> rs.
Proof.
  intros H. rewrite list_fmap_insert. simpl.
  apply list_insert_id. rewrite list_lookup_fmap, H. reflexivity.
Qed.

Lemma settle_idle_view (i : nat) (s : Settlement) (w : World) :
  _loadingURL (this w) = None ->
  this (step extractURL (Settle i s) w) = this w /\
  notifications (trace (step extractURL (Settle i s) w)) = notifications (trace w).
Proof.
  intros Hnone. unfold step, exec.
  settle_cases i s w; simpl; try (rewrite Hnone in *; discriminate);
    unfold notifications; rewrite ?omap_app; simpl; rewrite ?app_nil_r;
    try (split; reflexivity).
  destruct_world w. subst. split; reflexivity.
Qed.

Lemma settlements_idle_view (ss : list (nat * Settlement)) (w : World) :
  _loadingURL (this w) = None ->
  this (run extractURL (settlements ss) w) = this w /\
  notifications (trace (run extractURL (settlements ss) w)) = notifications (trace w).
Proof.
  revert w. induction ss as [|[i s] ss IH]; intros w Hnone; simpl; [auto|].
  destruct (settle_idle_view i s w Hnone) as [Ht Hn].
  destruct (IH (step extractURL (Settle i s) w)) as [Ht' Hn'].
  - rewrite Ht. exact Hnone.
  - rewrite Ht', Hn'. auto.
Qed.

(** X10. While [_loadingURL] is [null], whatever settles, in whatever order
    and with whatever outcome, changes no field of the view and gives the
    materials nothing. *)
Theorem idle_view_ignores_settlements (ss : list (nat * Settlement)) (w : World) :
  _loadingURL (this w) = None ->
  this (run extractURL (settlements ss) w) = this w /\
  notifications (trace (run extractURL (settlements ss) w)) = notifications (trace w).
Proof.
  apply settlements_idle_view.
Qed.

Lemma fulfilments_settlements (ss : list (nat * Texture)) :
  fulfilments ss
  = settlements ((fun p => (fst p, Fulfilled (Some (snd p)))) <$> ss).
Proof.
  unfold fulfilments, settlements. rewrite <- list_fmap_compose. reflexivity.
Qed.

Lemma fulfilments_reach_latest
    (k : string) (n : nat) (ss : list (nat * Texture)) (w : World) :
  _loadingURL (this w) = Some k ->
  requests w !! n = Some (mkRequest k false) ->
  In n (fst <$> ss) ->
  _loadingURL (this (run extractURL (fulfilments ss) w)) = None /\
  _textureURL (this (run extractURL (fulfilments ss) w)) = Some k /\
  exists i tex,
    In (i, tex) ss /\
    req_url <$> (requests w !! i) = Some k /\
    _texture (this (run extractURL (fulfilments ss) w)) = Some tex /\
    material_maps (this (run extractURL (fulfilments ss) w)) = Some (Some tex).
Proof.
  revert w. induction ss as [|[i tex] ss IH]; intros w Hload Hn Hin; [destruct Hin|].
  simpl.
  set (w1 := step extractURL (Settle i (Fulfilled (Some tex))) w).
  assert (E1 : w1 = snd (settle i (Fulfilled (Some tex)) w)) by reflexivity.
  assert (Hidle : w1 = w -> i <> n ->
    _loadingURL (this (run extractURL (fulfilments ss) w1)) = None /\
    _textureURL (this (run extractURL (fulfilments ss) w1)) = Some k /\
    exists j t,
      In (j, t) ((i, tex) :: ss) /\
      req_url <$> (requests w !! j) = Some k /\
      _texture (this (run extractURL (fulfilments ss) w1)) = Some t /\
      material_maps (this (run extractURL (fulfilments ss) w1)) = Some (Some t)).
  { intros -> Hne. destruct Hin as [Hin|Hin]; [simpl in Hin; congruence|].
    destruct (IH w Hload Hn Hin) as (H1 & H2 & j & t & Hj & Hu & H3 & H4).
    split; [exact H1 | split; [exact H2|]].
    exists j, t. split; [right; exact Hj | auto]. }
  destruct (requests w !! i) as [[url settled]|] eqn:Hreq.
  - destruct settled.
    + (* settled before: nothing happens *)
      apply Hidle; [|intros ->; rewrite Hn in Hreq; discriminate].
      rewrite E1, settle_idle; [reflexivity|].
      intros r Hr. rewrite Hreq in Hr. injection Hr as <-. reflexivity.
    + destruct (decide (_loadingURL (this w) = Some url)) as [Hcur|Hcur].
      * (* the fulfilment that is applied *)
        rewrite (settle_fulfilled_current_eq w i url tex Hreq Hcur) in E1.
        simpl in E1. rewrite fulfilments_settlements.
        destruct (settlements_idle_view
                    ((fun p => (fst p, Fulfilled (Some (snd p)))) <$> ss) w1)
          as [Ht _]; [rewrite E1; reflexivity|].
        rewrite Ht, E1. simpl.
        assert (url = k) as -> by congruence.
        split; [reflexivity | split; [reflexivity|]].
        exists i, tex. split; [left; reflexivity|].
        split; [rewrite Hreq; reflexivity|].
        split; [reflexivity|].
        unfold material_maps. simpl. rewrite decide_True by reflexivity.
        reflexivity.
      * (* a stale one *)
        rewrite (settle_fulfilled_stale_eq w i url (Some tex) Hreq Hcur) in E1.
        simpl in E1.
        assert (Hne : i <> n) by (intros ->; rewrite Hn in Hreq; congruence).
        destruct Hin as [Hin|Hin]; [simpl in Hin; congruence|].
        destruct (IH w1) as (H1 & H2 & j & t & Hj & Hu & H3 & H4).
        { rewrite E1. exact Hload. }
        { rewrite E1. simpl. rewrite list_lookup_insert_ne by exact Hne. exact Hn. }
        { exact Hin. }
        split; [exact H1 | split; [exact H2|]].
        exists j, t. split; [right; exact Hj|].
        split; [|auto].
        rewrite E1 in Hu. simpl in Hu.
        rewrite <- list_lookup_fmap. rewrite <- list_lookup_fmap in Hu.
        rewrite (insert_settled_urls _ _ _ _ Hreq) in Hu. exact Hu.
  - apply Hidle; [|intros ->; rewrite Hn in Hreq; discriminate].
    rewrite E1, settle_idle; [reflexivity|].
    intros r Hr. rewrite Hreq in Hr. discriminate.
Qed.

(** X4. A bind whose load is fulfilled with a texture ends up bound, as long
    as only fulfilments with textures come in between: after the bind of a
    specifier with key [k], any list of such fulfilments that settles the new
    request leaves [_textureURL] at [k], [_loadingURL] cleared, and on both
    materials the texture of a request for [k]. *)
Theorem fulfilled_bind_ends_bound
    (value : ResourceSpecifier) (k : string) (w : World) (ss : list (nat * Texture)) :
  resolves_to extractURL value k ->
  In (length (requests w)) (fst <$> ss) ->
  let w1 := step extractURL (SetTexture value) w in
  let wf := run extractURL (fulfilments ss) w1 in
  _loadingURL (this wf) = None /\
  _textureURL (this wf) = Some k /\
  exists i tex,
    In (i, tex) ss /\
    req_url <$> (requests w1 !! i) = Some k /\
    _texture (this wf) = Some tex /\
    material_maps (this wf) = Some (Some tex).
Proof.
  intros Hr Hin w1 wf.
  assert (E1 : w1 = snd (_setTexture extractURL value w)) by reflexivity.
  rewrite (setTexture_url_eq value k w Hr) in E1. simpl in E1.
  apply (fulfilments_reach_latest k (length (requests w)) ss w1).
  - rewrite E1. reflexivity.
  - rewrite E1. simpl. apply list_lookup_middle. reflexivity.
  - exact Hin.
Qed.

(** ** Exceptions *)

(** X5. A bind throws exactly for a truthy specifier without a truthy URL,
    and then the invalid-value error of that specifier; a settlement never
    throws, whatever request it names and however it settles: when the
    fulfilment handler stops at a [null] texture, the [.catch] of lines
    171-173 passes the [TypeError] to [console.error] as the last call. *)
Theorem only_invalid_specifier_throws
    (value : ResourceSpecifier) (i : nat) (s : Settlement) (w : World) (err : JsError) :
  (fst (_setTexture extractURL value w) = Throw err <->
   truthy value = true /\ truthy_url (extractURL value) = false /\
   err = InvalidTextureValue value) /\
  fst (settle i s w) = Return tt /\
  (forall url,
      requests w !! i = Some (mkRequest url false) ->
      _loadingURL (this w) = Some url ->
      last (trace (snd (settle i (Fulfilled None) w))) = Some (ConsoleError TypeError)).
Proof.
  split; [|split].
  - split.
    + destruct (truthy value) eqn:Ht.
      * destruct (truthy_url (extractURL value)) eqn:Hu.
        -- destruct (truthy_url_Some _ Hu) as (a & k & Hk).
           rewrite (setTexture_url_eq value (String a k) w)
             by (split; [exact Ht | split; [exact Hk | reflexivity]]).
           discriminate.
        -- rewrite (setTexture_invalid_eq value w Ht Hu). intros [= <-]. auto.
      * rewrite (setTexture_empty_eq value w Ht). discriminate.
    + intros (Ht & Hu & ->). rewrite (setTexture_invalid_eq value w Ht Hu).
      reflexivity.
  - settle_cases i s w; reflexivity.
  - intros url Hreq Hcur.
    rewrite (settle_fulfilled_null_eq w i url Hreq Hcur). simpl.
    rewrite app_assoc. apply last_snoc.
Qed.

(** ** Materials *)

(** X7. In a view that was not disposed and whose loads were fulfilled with
    textures only, both materials carry the bound texture as their map, and
    no map when nothing is bound. *)
Theorem materials_show_bound_texture (es : list Step) :
  Forall (fun e => nonnull_resolution e = true /\ is_dispose e = false) es ->
  let w := run extractURL es construct in
  Material.map (_litMaterial (this w)) = _texture (this w) /\
  Material.map (_unlitMaterial (this w)) = _texture (this w).
Proof.
  intros Hes. apply (run_materials_follow es construct Hes). split; reflexivity.
Qed.

(** ** Clearing *)

Lemma clear_eq (c : Step) (w : World) :
  is_clear c = true ->
  _texture (this (step extractURL c w)) = None /\
  removals (trace (step extractURL c w))
  = removals (trace w)
    ++ removals (if bool_decide (is_Some (_texture (this w)))
                 then releases (_textureURL (this w)) else []).
Proof.
  intros Hc. unfold step, exec. destruct c as [value| |]; simpl in Hc; try discriminate.
  - apply negb_true_iff in Hc. rewrite (setTexture_empty_eq value w Hc). simpl.
    split; [reflexivity|]. unfold removals. rewrite !omap_app. simpl.
    rewrite app_nil_r. reflexivity.
  - rewrite dispose_eq. simpl.
    split; [reflexivity|]. unfold removals. rewrite !omap_app. simpl.
    rewrite app_nil_r. reflexivity.
Qed.

(** X8. A clear (a bind with a falsy specifier, or [dispose()]) issues at
    most one [removeReference], and a clear that follows a clear issues none:
    clearing twice, or disposing after clearing, releases nothing twice. *)
Theorem clear_after_clear_releases_nothing (c1 c2 : Step) (w : World) :
  is_clear c1 = true ->
  is_clear c2 = true ->
  let w1 := step extractURL c1 w in
  let w2 := step extractURL c2 w1 in
  length (removals (trace w1)) <= S (length (removals (trace w))) /\
  removals (trace w2) = removals (trace w1).
Proof.
  intros H1 H2 w1 w2.
  destruct (clear_eq c1 w H1) as [Ht1 Hr1].
  destruct (clear_eq c2 w1 H2) as [_ Hr2].
  fold w1 in Ht1, Hr1. fold w2 in Hr2. split.
  - rewrite Hr1, length_app.
    destruct (bool_decide _); [|simpl; lia].
    destruct (_textureURL (this w)) as [[|a s]|]; simpl; lia.
  - rewrite Hr2, Ht1. simpl. apply app_nil_r.
Qed.

End Binding.


(** ** The appearance setters *)

Module AppearanceFacts.

Import Appearance.

Section Numbers.

Context {number : Type}.
Variable lt : number -> number -> bool.
Variable one white : number.

Lemma history_app (es1 es2 : list Step) (v : View) :
  run lt one white (es1 ++ es2) v = run lt one white es2 (run lt one white es1 v).
Proof.
  revert v. induction es1 as [|e es1 IH]; intros v; simpl; [reflexivity | apply IH].
Qed.

Lemma step_mesh_follows_lit (e : Step) (v : View) :
  mesh_follows_lit v -> mesh_follows_lit (step lt one white e v).
Proof.
  intros Hv. unfold mesh_follows_lit in *.
  destruct e as [value|c|flag|flag|g|display]; simpl.
  - destruct value; exact Hv.
  - destruct c; exact Hv.
  - destruct (mesh v); intros m' [= <-]. reflexivity.
  - exact Hv.
  - unfold _setGeometry. destruct (mesh v) as [m0|] eqn:Em; simpl.
    + intros m' [= <-]. simpl. apply Hv. reflexivity.
    + intros m' [= <-]. reflexivity.
  - exact Hv.
Qed.

Lemma run_mesh (es : list Step) (v : View) :
  mesh_follows_lit v ->
  _lit (run lt one white es v) = lit_after es (_lit v) /\
  mesh (run lt one white es v)
  = (fun g => mkMesh g (material_for (lit_after es (_lit v))))
      <$> geometry_after es (geometry <$> mesh v).
Proof.
  revert v. induction es as [|e es IH]; intros v Hv.
  - simpl. split; [reflexivity|].
    destruct (mesh v) as [[g mat]|] eqn:Em; simpl; [|reflexivity].
    rewrite <- (Hv _ Em). reflexivity.
  - simpl. destruct (IH _ (step_mesh_follows_lit e v Hv)) as [Hl Hm].
    rewrite Hl, Hm.
    destruct e as [value|c|flag|flag|g|display]; simpl.
    + destruct value; auto.
    + destruct c; auto.
    + destruct (mesh v); auto.
    + auto.
    + unfold _setGeometry. destruct (mesh v); auto.
    + auto.
Qed.

(** X11. Whatever the order of the calls, the mesh is decided by the last
    [_setGeometry] and the last [_setLit]: there is none before a geometry is
    set, and afterwards it has the geometry set last and the material the
    last lighting flag selects ([false] when never set). *)
Theorem mesh_after_history (es : list Step) :
  mesh (run lt one white es (construct one white))
  = (fun g => mkMesh g (material_for (lit_after es false)))
      <$> geometry_after es None.
Proof.
  apply (run_mesh es (construct one white)). intros m [=].
Qed.

Lemma run_adds (es : list Step) (v : View) :
  adds (calls (run lt one white es v))
  = adds (calls v)
    + match mesh v, geometry_after es None with
      | None, Some _ => 1
      | _, _ => 0
      end.
Proof.
  revert v. induction es as [|e es IH]; intros v.
  - simpl. destruct (mesh v); lia.
  - simpl. rewrite IH.
    destruct e as [value|c|flag|flag|g|display]; simpl.
    + destruct value; reflexivity.
    + destruct c; reflexivity.
    + destruct (mesh v); reflexivity.
    + reflexivity.
    + unfold _setGeometry.
      assert (Hg : exists g', geometry_after es (Some g) = Some g').
      { clear. revert g. induction es as [|e es IH]; intros g; simpl; [eauto|].
        destruct e; auto. }
      destruct Hg as [g' ->].
      destruct (mesh v); simpl.
      * destruct (geometry_after es None); lia.
      * unfold adds. rewrite List.filter_app, length_app. simpl. lia.
    + unfold adds. simpl. rewrite !List.filter_app, !length_app.
      destruct (mesh v); simpl; lia.
Qed.

(** X12. The view is given the mesh as a child exactly once, by the first
    [_setGeometry]: a history makes one [view.add] call when it sets a
    geometry and none when it does not. *)
Theorem view_gets_one_child (es : list Step) :
  adds (calls (run lt one white es (construct one white)))
  = match geometry_after es None with Some _ => 1 | None => 0 end.
Proof.
  rewrite run_adds. reflexivity.
Qed.

Lemma step_materials_in_step (e : Step) (v : View) :
  materials_in_step white v -> materials_in_step white (step lt one white e v).
Proof.
  intros (Hm & Hw & Hc). unfold materials_in_step.
  destruct e as [value|c|flag|flag|g|display]; simpl.
  - destruct value; simpl; rewrite <- Hm; auto.
  - destruct c; simpl; rewrite <- Hm; auto.
  - auto.
  - rewrite <- Hm. auto.
  - unfold _setGeometry. destruct (mesh v); auto.
  - auto.
Qed.

(** X13. Through any history the two materials agree on colour, opacity,
    transparency and wireframe, their wireframe flag is [_wireframe] and
    their colour is [_color], or 0xffffff while [_color] is [null] or
    [undefined]: switching the lighting never changes how the mesh looks
    otherwise. *)
Theorem materials_agree (es : list Step) :
  let v := run lt one white es (construct one white) in
  _litMaterial v = _unlitMaterial v /\
  wireframe (_litMaterial v) = _wireframe v /\
  color (_litMaterial v) = default white (_color v).
Proof.
  assert (G : forall v, materials_in_step white v ->
                        materials_in_step white (run lt one white es v)).
  { induction es as [|e es IH]; intros v Hv; [exact Hv|].
    simpl. apply IH, step_materials_in_step, Hv. }
  apply G. repeat split.
Qed.

Lemma run_opacity (es : list Step) (v : View) (o : number) :
  lt one one = false ->
  opacity (_litMaterial v) = o -> opacity (_unlitMaterial v) = o ->
  transparent (_litMaterial v) = lt o one ->
  transparent (_unlitMaterial v) = lt o one ->
  let v' := run lt one white es v in
  let o' := opacity_after one es o in
  (opacity (_litMaterial v') = o' /\ opacity (_unlitMaterial v') = o') /\
  (transparent (_litMaterial v') = lt o' one /\
   transparent (_unlitMaterial v') = lt o' one).
Proof.
  intros H1. revert v o.
  induction es as [|e es IH]; intros v o Hl Hu Htl Htu; simpl; [auto|].
  destruct e as [value|c|flag|flag|g|display]; simpl.
  - destruct value as [x|]; apply IH; simpl; auto.
  - destruct c; apply IH; simpl; auto.
  - apply IH; simpl; auto.
  - apply IH; simpl; auto.
  - unfold _setGeometry. destruct (mesh v); apply IH; simpl; auto.
  - apply IH; simpl; auto.
Qed.

(** X14. With 1 < 1 false, as for JavaScript numbers, through any history
    the opacity of both materials is the value of the last opacity
    assignment, 1 when that assignment was [null] or when there was none,
    and each material is transparent exactly when that opacity is below 1. *)
Theorem transparent_iff_opacity_below_one (es : list Step) :
  lt one one = false ->
  let v := run lt one white es (construct one white) in
  let o := opacity_after one es one in
  (opacity (_litMaterial v) = o /\ opacity (_unlitMaterial v) = o) /\
  (transparent (_litMaterial v) = lt o one /\
   transparent (_unlitMaterial v) = lt o one) /\
  (transparent (_litMaterial v) = lt (opacity (_litMaterial v)) one /\
   transparent (_unlitMaterial v) = lt (opacity (_unlitMaterial v)) one).
Proof.
  intros H1 v o.
  destruct (run_opacity es (construct one white) one H1)
    as ((Hl & Hu) & (Htl & Htu)); simpl; auto.
  fold v in Hl, Hu, Htl, Htu. fold o in Hl, Hu, Htl, Htu.
  split; [auto | split; [auto|]].
  rewrite Hl, Hu. auto.
Qed.

(** X15. [presentLayout] after any history shows or hides the geometry set
    last, by whether the layout display is [DISPLAY_NONE], and writes on no
    geometry while none was set. *)
Theorem presentLayout_targets_last_geometry (es : list Step) (display : Display) :
  calls (run lt one white (es ++ [PresentLayout display]) (construct one white))
  = calls (run lt one white es (construct one white))
    ++ [SuperPresentLayout]
    ++ match geometry_after es None with
       | Some g =>
           [GeometryVisible g
              (match display with DISPLAY_NONE => false | DISPLAY_FLEX => true end)]
       | None => []
       end.
Proof.
  rewrite history_app. simpl. unfold presentLayout. simpl.
  destruct (run_mesh es (construct one white)) as [_ Hm]; [intros m [=]|].
  rewrite Hm. simpl.
  destruct (geometry_after es None); reflexivity.
Qed.

End Numbers.

End AppearanceFacts.

(** ** Concrete runs *)

(** C1, on the code. [dispose()] while the load of a.png is in flight
    leaves [_loadingURL] set, so the fulfilment that follows binds the
    texture on the disposed view: every request has settled, one
    [addReference] was issued and no [removeReference]. *)
Lemma dispose_during_load_leaks :
  let w := run extractURL_of_uri
             [SetTexture (RSString "a.png"); Dispose;
              Settle 0 (Fulfilled (Some (TextureObject 7)))] construct in
  in_flight (requests w) = [] /\
  additions (trace w) = ["a.png"] /\
  removals (trace w) = [] /\
  _textureURL (this w) = Some "a.png" /\
  _texture (this w) = Some (TextureObject 7).
Proof.
  repeat split; reflexivity.
Qed.

(** C4, on the code. The rejection of the superseded request for a.png
    clears [_loadingURL], which named the newer request for b.png; the
    fulfilment of b.png is then taken for stale and dropped. *)
Lemma stale_rejection_clears_loadingURL :
  let w3 := step extractURL_of_uri (Settle 0 (Rejected (LoadError "404")))
              loading_a_then_b in
  let w4 := step extractURL_of_uri (Settle 1 (Fulfilled (Some (TextureObject 8)))) w3 in
  _loadingURL (this loading_a_then_b) = Some "b.png" /\
  _loadingURL (this w3) = None /\
  removals (trace w3) = ["a.png"] /\
  _texture (this w4) = None /\
  notifications (trace w4) = [] /\
  removals (trace w4) = ["a.png"; "b.png"].
Proof.
  repeat split; reflexivity.
Qed.

(** C5, on the code. A bind with [null] while the load of a.png is in
    flight leaves [_loadingURL] at a.png; the fulfilment that follows is
    current and puts the texture on the materials after they were cleared. *)
Lemma clear_during_load_keeps_loadingURL :
  let w2 := step extractURL_of_uri (SetTexture RSNull) loading_a in
  let w3 := step extractURL_of_uri (Settle 0 (Fulfilled (Some (TextureObject 7)))) w2 in
  _loadingURL (this w2) = Some "a.png" /\
  notifications (trace w2) = [None] /\
  _texture (this w3) = Some (TextureObject 7) /\
  _textureURL (this w3) = Some "a.png" /\
  notifications (trace w3) = [None; Some (TextureObject 7)] /\
  removals (trace w3) = [].
Proof.
  repeat split; reflexivity.
Qed.

(** Why C9 asks for fulfilments with a texture: with a.png bound and b.png
    loading, a fulfilment of b.png with [null] releases a.png and clears
    [_texture], then stops at [this._texture.needsUpdate = true]; the key
    a.png stays in [_textureURL] and the reference of b.png is kept. *)
Remark null_fulfilment_splits_texture_and_key :
  let w := run extractURL_of_uri
             [SetTexture (RSObject "b.png"); Settle 1 (Fulfilled None)] bound_a in
  _texture (this w) = None /\
  _textureURL (this w) = Some "a.png" /\
  additions (trace w) = ["a.png"; "b.png"] /\
  removals (trace w) = ["a.png"].
Proof.
  repeat split; reflexivity.
Qed.


(** C3, as stated, fails: with a.png bound, and with a.png loading, a bind
    with a.png changes the view, adds a reference and starts a fetch. *)
Lemma same_key_bind_is_not_noop :
  resolves_to extractURL_of_uri (RSString "a.png") "a.png" /\
  _textureURL (this bound_a) = Some "a.png" /\
  _loadingURL (this loading_a) = Some "a.png" /\
  (let w' := step extractURL_of_uri (SetTexture (RSString "a.png")) bound_a in
   w' <> bound_a /\
   additions (trace w') = additions (trace bound_a) ++ ["a.png"] /\
   fetches (trace w') = fetches (trace bound_a) ++ ["a.png"]) /\
  (let w' := step extractURL_of_uri (SetTexture (RSString "a.png")) loading_a in
   w' <> loading_a /\
   additions (trace w') = additions (trace loading_a) ++ ["a.png"] /\
   fetches (trace w') = fetches (trace loading_a) ++ ["a.png"]).
Proof.
  repeat split; try reflexivity; discriminate.
Qed.

(** C6, as stated, fails: after [dispose()] a bind with b.png is honoured,
    it adds a reference and starts a fetch. *)
Lemma bind_after_dispose_is_honoured :
  let wd := step extractURL_of_uri Dispose bound_a in
  let wb := step extractURL_of_uri (SetTexture (RSString "b.png")) wd in
  wb <> wd /\
  additions (trace wb) = additions (trace wd) ++ ["b.png"] /\
  fetches (trace wb) = fetches (trace wd) ++ ["b.png"] /\
  _loadingURL (this wb) = Some "b.png".
Proof.
  repeat split; try reflexivity; discriminate.
Qed.

(** An instance of [setTexture_invalid_throws]: an object whose [uri] is the
    empty string, on a view with a.png bound. *)
Lemma setTexture_invalid_throws_witness :
  truthy (RSObject EmptyString) = true /\
  truthy_url (extractURL_of_uri (RSObject EmptyString)) = false /\
  _setTexture extractURL_of_uri (RSObject EmptyString) bound_a
  = (Throw (InvalidTextureValue (RSObject EmptyString)), bound_a).
Proof.
  split; [reflexivity | split; [reflexivity |]].
  apply (setTexture_invalid_throws extractURL_of_uri (RSObject EmptyString) bound_a);
    reflexivity.
Defined.

(** An instance of [setTexture_same_key]: a.png bound, a.png bound again. *)
Lemma setTexture_same_key_witness :
  resolves_to extractURL_of_uri (RSString "a.png") "a.png" /\
  _textureURL (this bound_a) = Some "a.png" /\
  trace (snd (_setTexture extractURL_of_uri (RSString "a.png") bound_a))
  = trace bound_a ++ [AddReference "a.png"; GetTextureForURL "a.png"].
Proof.
  assert (Hr : resolves_to extractURL_of_uri (RSString "a.png") "a.png")
    by (repeat split; reflexivity).
  assert (Hk : _textureURL (this bound_a) = Some "a.png") by reflexivity.
  split; [exact Hr | split; [exact Hk |]].
  rewrite (setTexture_same_key extractURL_of_uri (RSString "a.png") "a.png"
             bound_a Hr (or_introl Hk)).
  reflexivity.
Defined.

(** An instance of [dispose_releases_not_inert]: a.png bound, then
    [dispose()], then a bind with b.png. *)
Lemma dispose_releases_not_inert_witness :
  let wd := step extractURL_of_uri Dispose bound_a in
  let wb := step extractURL_of_uri (SetTexture (RSString "b.png")) wd in
  removals (trace wd) = removals (trace bound_a) ++ ["a.png"] /\
  _texture (this wd) = None /\
  _textureURL (this wd) = None /\
  trace wb = trace wd ++ [AddReference "b.png"; GetTextureForURL "b.png"] /\
  requests wb = requests wd ++ [mkRequest "b.png" false] /\
  _loadingURL (this wb) = Some "b.png".
Proof.
  apply (dispose_releases_not_inert extractURL_of_uri bound_a (TextureObject 7) "a.png"
           (RSString "b.png") "b.png").
  - reflexivity.
  - reflexivity.
  - reflexivity.
  - split; [reflexivity | split; reflexivity].
Defined.


(** Instances of [settle_fulfilled_postcondition]: the current request for
    b.png and the stale request for a.png. *)
Lemma settle_fulfilled_postcondition_witness :
  requests loading_a_then_b !! 1 = Some (mkRequest "b.png" false) /\
  _loadingURL (this loading_a_then_b) = Some "b.png" /\
  trace (snd (settle 1 (Fulfilled (Some (TextureObject 8))) loading_a_then_b))
  = trace loading_a_then_b ++ [TextureNeedsUpdate (TextureObject 8); MaterialMaps (Some (TextureObject 8))] /\
  requests loading_a_then_b !! 0 = Some (mkRequest "a.png" false) /\
  _loadingURL (this loading_a_then_b) <> Some "a.png" /\
  trace (snd (settle 0 (Fulfilled (Some (TextureObject 7))) loading_a_then_b))
  = trace loading_a_then_b ++ [RemoveReference "a.png"].
Proof.
  assert (H1 : requests loading_a_then_b !! 1 = Some (mkRequest "b.png" false))
    by reflexivity.
  assert (H0 : requests loading_a_then_b !! 0 = Some (mkRequest "a.png" false))
    by reflexivity.
  assert (Hcur : _loadingURL (this loading_a_then_b) = Some "b.png") by reflexivity.
  assert (Hst : _loadingURL (this loading_a_then_b) <> Some "a.png") by discriminate.
  split; [exact H1 | split; [exact Hcur | split]].
  - rewrite (proj1 (settle_fulfilled_postcondition loading_a_then_b 1 "b.png" (TextureObject 8) H1) Hcur).
    reflexivity.
  - split; [exact H0 | split; [exact Hst |]].
    rewrite (proj2 (settle_fulfilled_postcondition loading_a_then_b 0 "a.png" (TextureObject 7) H0) Hst).
    reflexivity.
Defined.

(** An instance of [supersession]: a.png then b.png, b.png fulfilled first. *)
Lemma supersession_witness :
  resolves_to extractURL_of_uri (RSString "a.png") "a.png" /\
  resolves_to extractURL_of_uri (RSObject "b.png") "b.png" /\
  exists l,
    notifications
      (trace (run extractURL_of_uri
                (settlements [(1, Fulfilled (Some (TextureObject 8))); (0, Fulfilled (Some (TextureObject 7)))])
                loading_a_then_b))
    = notifications (trace construct) ++ l /\
    (l = [] \/
     exists i tex,
       l = [Some tex] /\
       In (i, Fulfilled (Some tex)) [(1, Fulfilled (Some (TextureObject 8))); (0, Fulfilled (Some (TextureObject 7)))] /\
       req_url <$> (requests loading_a_then_b !! i) = Some "b.png" /\
       ("a.png" <> "b.png" -> i <> 0)).
Proof.
  assert (H1 : resolves_to extractURL_of_uri (RSString "a.png") "a.png")
    by (repeat split; reflexivity).
  assert (H2 : resolves_to extractURL_of_uri (RSObject "b.png") "b.png")
    by (repeat split; reflexivity).
  split; [exact H1 | split; [exact H2 |]].
  exact (proj2 (supersession extractURL_of_uri (RSString "a.png") (RSObject "b.png")
                  "a.png" "b.png" construct
                  [(1, Fulfilled (Some (TextureObject 8))); (0, Fulfilled (Some (TextureObject 7)))] H1 H2)).
Defined.

(** An instance of [texture_iff_textureURL]. *)
Lemma texture_iff_textureURL_witness :
  let es := [SetTexture (RSString "a.png"); Settle 0 (Fulfilled (Some (TextureObject 7)));
             SetTexture (RSObject "b.png"); Dispose; Settle 1 (Rejected (LoadError "404"))] in
  Forall (fun e => nonnull_resolution e = true) es /\
  (_texture (this (run extractURL_of_uri es construct)) = None
   <-> _textureURL (this (run extractURL_of_uri es construct)) = None).
Proof.
  assert (H : Forall (fun e => nonnull_resolution e = true)
                [SetTexture (RSString "a.png"); Settle 0 (Fulfilled (Some (TextureObject 7)));
                 SetTexture (RSObject "b.png"); Dispose;
                 Settle 1 (Rejected (LoadError "404"))])
    by (repeat constructor).
  split; [exact H |].
  exact (texture_iff_textureURL extractURL_of_uri _ H).
Defined.

(** ** Instances of the further properties *)

(** An instance of [references_accounted_per_key]. *)
Lemma references_accounted_per_key_witness :
  Forall (fun e => nonnull_resolution e = true) busy_history /\
  let w := run extractURL_of_uri busy_history construct in
  count_key "b.png" (additions (trace w))
  = count_key "b.png" (removals (trace w)) + in_flight_for "b.png" (requests w)
    + bound_to "b.png" (this w).
Proof.
  assert (H : Forall (fun e => nonnull_resolution e = true) busy_history)
    by (repeat constructor).
  split; [exact H|].
  exact (references_accounted_per_key extractURL_of_uri busy_history "b.png" H).
Defined.

(** An instance of [removeReference_never_underflows]. *)
Lemma removeReference_never_underflows_witness :
  Forall (fun e => nonnull_resolution e = true) busy_history /\
  [AddReference "a.png"; GetTextureForURL "a.png"; AddReference "b.png";
   GetTextureForURL "b.png"; TextureNeedsUpdate (TextureObject 8)]
    `prefix_of` trace (run extractURL_of_uri busy_history construct) /\
  count_key "b.png"
    (removals [AddReference "a.png"; GetTextureForURL "a.png"; AddReference "b.png";
               GetTextureForURL "b.png"; TextureNeedsUpdate (TextureObject 8)])
  <= count_key "b.png"
       (additions [AddReference "a.png"; GetTextureForURL "a.png"; AddReference "b.png";
                   GetTextureForURL "b.png"; TextureNeedsUpdate (TextureObject 8)]).
Proof.
  assert (H : Forall (fun e => nonnull_resolution e = true) busy_history)
    by (repeat constructor).
  assert (Hp : [AddReference "a.png"; GetTextureForURL "a.png"; AddReference "b.png";
                GetTextureForURL "b.png"; TextureNeedsUpdate (TextureObject 8)]
                 `prefix_of` trace (run extractURL_of_uri busy_history construct))
    by (eexists; reflexivity).
  split; [exact H | split; [exact Hp|]].
  exact (removeReference_never_underflows extractURL_of_uri busy_history _ "b.png" H Hp).
Defined.

(** An instance of [loadingURL_names_latest_request]. *)
Lemma loadingURL_names_latest_request_witness :
  _loadingURL (this (run extractURL_of_uri
                       [SetTexture (RSString "a.png"); SetTexture (RSObject "b.png")]
                       construct)) = Some "b.png" /\
  exists rs,
    requests (run extractURL_of_uri
                [SetTexture (RSString "a.png"); SetTexture (RSObject "b.png")]
                construct)
    = rs ++ [mkRequest "b.png" false].
Proof.
  split; [reflexivity|].
  exact (loadingURL_names_latest_request extractURL_of_uri
           [SetTexture (RSString "a.png"); SetTexture (RSObject "b.png")]
           "b.png" eq_refl).
Defined.

(** An instance of [fulfilled_bind_ends_bound]: b.png bound while a.png
    loads, a.png fulfilled first. *)
Lemma fulfilled_bind_ends_bound_witness :
  resolves_to extractURL_of_uri (RSObject "b.png") "b.png" /\
  In (length (requests loading_a))
     (fst <$> [(0, TextureObject 7); (1, TextureObject 8)]) /\
  _textureURL
    (this (run extractURL_of_uri
             (fulfilments [(0, TextureObject 7); (1, TextureObject 8)])
             (step extractURL_of_uri (SetTexture (RSObject "b.png")) loading_a)))
  = Some "b.png".
Proof.
  assert (Hr : resolves_to extractURL_of_uri (RSObject "b.png") "b.png")
    by (split; [reflexivity | split; reflexivity]).
  assert (Hin : In (length (requests loading_a))
                   (fst <$> [(0, TextureObject 7); (1, TextureObject 8)]))
    by (right; left; reflexivity).
  split; [exact Hr | split; [exact Hin|]].
  exact (proj1 (proj2 (fulfilled_bind_ends_bound extractURL_of_uri
                         (RSObject "b.png") "b.png" loading_a
                         [(0, TextureObject 7); (1, TextureObject 8)] Hr Hin))).
Defined.

(** An instance of [materials_show_bound_texture]. *)
Lemma materials_show_bound_texture_witness :
  let es := [SetTexture (RSString "a.png");
             Settle 0 (Fulfilled (Some (TextureObject 7)))] in
  Forall (fun e => nonnull_resolution e = true /\ is_dispose e = false) es /\
  Material.map (_litMaterial (this (run extractURL_of_uri es construct)))
  = _texture (this (run extractURL_of_uri es construct)) /\
  Material.map (_unlitMaterial (this (run extractURL_of_uri es construct)))
  = _texture (this (run extractURL_of_uri es construct)).
Proof.
  assert (H : Forall (fun e => nonnull_resolution e = true /\ is_dispose e = false)
                [SetTexture (RSString "a.png");
                 Settle 0 (Fulfilled (Some (TextureObject 7)))])
    by (repeat constructor).
  split; [exact H|].
  exact (materials_show_bound_texture extractURL_of_uri _ H).
Defined.

(** An instance of [clear_after_clear_releases_nothing]: a.png bound, a
    bind with [null], then [dispose()]. *)
Lemma clear_after_clear_releases_nothing_witness :
  is_clear (SetTexture RSNull) = true /\
  is_clear Dispose = true /\
  let w1 := step extractURL_of_uri (SetTexture RSNull) bound_a in
  let w2 := step extractURL_of_uri Dispose w1 in
  length (removals (trace w1)) <= S (length (removals (trace bound_a))) /\
  removals (trace w2) = removals (trace w1).
Proof.
  split; [reflexivity | split; [reflexivity|]].
  exact (clear_after_clear_releases_nothing extractURL_of_uri
           (SetTexture RSNull) Dispose bound_a eq_refl eq_refl).
Defined.

(** An instance of [dispose_when_idle_balances_every_key]. *)
Lemma dispose_when_idle_balances_every_key_witness :
  Forall (fun e => nonnull_resolution e = true) busy_history /\
  in_flight (requests (run extractURL_of_uri busy_history construct)) = [] /\
  let w := run extractURL_of_uri (busy_history ++ [Dispose]) construct in
  count_key "a.png" (additions (trace w)) = count_key "a.png" (removals (trace w)).
Proof.
  assert (H : Forall (fun e => nonnull_resolution e = true) busy_history)
    by (repeat constructor).
  split; [exact H | split; [reflexivity|]].
  exact (dispose_when_idle_balances_every_key extractURL_of_uri busy_history
           "a.png" H eq_refl).
Defined.

(** An instance of [idle_view_ignores_settlements]: the fulfilment of b.png
    after the rejection of a.png. *)
Lemma idle_view_ignores_settlements_witness :
  _loadingURL (this rejected_a_loading_b) = None /\
  this (run extractURL_of_uri
          (settlements [(1, Fulfilled (Some (TextureObject 8)))])
          rejected_a_loading_b)
  = this rejected_a_loading_b /\
  notifications
    (trace (run extractURL_of_uri
              (settlements [(1, Fulfilled (Some (TextureObject 8)))])
              rejected_a_loading_b))
  = notifications (trace rejected_a_loading_b).
Proof.
  split; [reflexivity|].
  exact (idle_view_ignores_settlements extractURL_of_uri
           [(1, Fulfilled (Some (TextureObject 8)))] rejected_a_loading_b eq_refl).
Defined.

(** An instance of [AppearanceFacts.transparent_iff_opacity_below_one], with
    integers for numbers: opacity 0, then [null]. *)
Lemma transparent_iff_opacity_below_one_witness :
  Z.ltb 1 1 = false /\
  let es := [Appearance.SetOpacity (Some 0%Z); Appearance.SetLit true;
             Appearance.SetGeometry 3; Appearance.SetOpacity None] in
  let v := Appearance.run Z.ltb 1%Z 16777215%Z es
             (Appearance.construct 1%Z 16777215%Z) in
  Appearance.opacity (Appearance._litMaterial v) = Appearance.opacity_after 1%Z es 1%Z /\
  Appearance.transparent (Appearance._litMaterial v)
  = Z.ltb (Appearance.opacity (Appearance._litMaterial v)) 1 /\
  Appearance.transparent (Appearance._unlitMaterial v)
  = Z.ltb (Appearance.opacity (Appearance._unlitMaterial v)) 1.
Proof.
  split; [reflexivity|].
  destruct (AppearanceFacts.transparent_iff_opacity_below_one Z.ltb 1%Z 16777215%Z
              [Appearance.SetOpacity (Some 0%Z); Appearance.SetLit true;
               Appearance.SetGeometry 3; Appearance.SetOpacity None] eq_refl)
    as ((Hl & _) & _ & (Htl & Htu)).
  split; [exact Hl | split; [exact Htl | exact Htu]].
Defined.
